(** * prompt_manager.py: prompt registry, strict rendering, usage log, metrics

    A shallow embedding of [src/prompt_manager.py].  Python values are an
    inductive type, the module-level index is a finite map, exceptions are a
    result type, and the third-party libraries the module calls
    ([packaging.version], [jsonschema], [json], [jinja2]) appear either as
    interfaces (type classes) or as explicitly delimited models. *)

From Stdlib Require Import ZArith QArith String Ascii List Lia.
From Stdlib Require Import Qreduction Qcanon.
From stdpp Require Import gmap strings list fin_maps sorting.


(** ** Python values

    The values that YAML documents, JSON request bodies and JSON log lines
    produce.  A [float] is modelled by the rational number it denotes
    (rounding, infinities and NaN are outside the model); a [dict] is an
    insertion-ordered association list with string keys. *)

#[local] Unset Elimination Schemes.
Inductive value : Type :=
| VNone
| VBool (b : bool)
| VInt (z : Z)
| VFloat (q : Q)
| VStr (s : string)
| VList (l : list value)
| VDict (d : list (string * value)).
#[local] Set Elimination Schemes.

Abbreviation pydict := (list (string * value)).

(** Induction over values, with the hypothesis available for every element
    of a list and every value stored in a dictionary. *)
Section ValueInd.
Variable P : value -> Prop.
Hypothesis HNone : P VNone.
Hypothesis HBool : forall b, P (VBool b).
Hypothesis HInt : forall z, P (VInt z).
Hypothesis HFloat : forall q, P (VFloat q).
Hypothesis HStr : forall s, P (VStr s).
Hypothesis HList : forall l, Forall P l -> P (VList l).
Hypothesis HDict : forall d, Forall (fun kv => P (snd kv)) d -> P (VDict d).

Fixpoint value_ind (v : value) : P v :=
  match v with
  | VNone => HNone
  | VBool b => HBool b
  | VInt z => HInt z
  | VFloat q => HFloat q
  | VStr s => HStr s
  | VList l =>
      HList l ((fix elems (l : list value) : Forall P l :=
                  match l with
                  | [] => List.Forall_nil P
                  | x :: l' => List.Forall_cons P x l' (value_ind x) (elems l')
                  end) l)
  | VDict d =>
      HDict d ((fix items (d : pydict) : Forall (fun kv => P (snd kv)) d :=
                  match d with
                  | [] => List.Forall_nil _
                  | kv :: d' => List.Forall_cons _ kv d' (value_ind (snd kv)) (items d')
                  end) d)
  end.
End ValueInd.

(** Exceptions the module can raise or let escape. *)
Inductive exn : Type :=
| KeyError (msg : string)
| IndexError
| TypeError
| AttributeError
| UndefinedError (name : string)
| TemplateSyntaxError
| SchemaError.

(** The outcome of a call: a value, an exception, or a case left outside
    the model (a template outside the modelled fragment, [float] of a
    string). *)
Inductive result (A : Type) : Type :=
| Ok (a : A)
| Raise (e : exn)
| Unmodelled.
Arguments Ok {A} a.
Arguments Raise {A} e.
Arguments Unmodelled {A}.

(** *** Dictionaries *)

(** [d.get(k)] *)
Fixpoint dict_get (d : pydict) (k : string) : option value :=
  match d with
  | [] => None
  | (k', v) :: d' => if decide (k' = k) then Some v else dict_get d' k
  end.

(** [d.get(k, dflt)] *)
Definition dict_get_or (d : pydict) (k : string) (dflt : value) : value :=
  default dflt (dict_get d k).

(** [d[k] = v]: an existing key keeps its position. *)
Fixpoint dict_set (k : string) (v : value) (d : pydict) : pydict :=
  match d with
  | [] => [(k, v)]
  | (k', v') :: d' =>
      if decide (k' = k) then (k', v) :: d' else (k', v') :: dict_set k v d'
  end.

(** [d.setdefault(k, v)] *)
Definition dict_setdefault (k : string) (v : value) (d : pydict) : pydict :=
  match dict_get d k with
  | Some _ => d
  | None => d ++ [(k, v)]
  end.

(** *** Truth value, as tested by [if x], [not x], [x or y] *)
Definition py_truthy (v : value) : bool :=
  match v with
  | VNone => false
  | VBool b => b
  | VInt z => negb (z =? 0)%Z
  | VFloat q => negb (Qeq_bool q 0)
  | VStr s => negb (String.eqb s "")
  | VList l => match l with [] => false | _ => true end
  | VDict d => match d with [] => false | _ => true end
  end.

(** *** Lexicographic order

    The order of Python tuples and strings: the first differing position
    decides, and a proper prefix is smaller. *)
Fixpoint lex_lt (a b : list N) : bool :=
  match a, b with
  | _, [] => false
  | [], _ :: _ => true
  | x :: a', y :: b' =>
      if (x <? y)%N then true
      else if (y <? x)%N then false
      else lex_lt a' b'
  end.

Definition char_codes (s : string) : list N :=
  map N_of_ascii (list_ascii_of_string s).

(** [s < t] on strings.  Strings are UTF-8 byte strings; comparing them
    byte by byte agrees with Python's code-point order. *)
Definition str_lt (s t : string) : bool := lex_lt (char_codes s) (char_codes t).

(** *** Stable descending sort

    [list.sort(key=..., reverse=True)]: descending by key, entries with equal
    keys keep their original relative order; only [<] on keys is used. *)
Section Sort.
Context {A K : Type} (lt : K -> K -> bool) (key : A -> K).

Fixpoint insert_desc (x : A) (l : list A) : list A :=
  match l with
  | [] => [x]
  | y :: l' => if lt (key x) (key y) then y :: insert_desc x l' else x :: l
  end.

Definition sort_desc (l : list A) : list A := foldr insert_desc [] l.
End Sort.

(** *** [str()] and [repr()] *)

Definition dquote : ascii := "034"%char.
Definition squote : ascii := "'"%char.
Definition backslash : ascii := "\"%char.
Definition tab : ascii := "009"%char.
Definition newline : ascii := "010"%char.
Definition carriage_return : ascii := "013"%char.

(** Decimal numerals, most significant digit first. *)
Definition digit_char (d : N) : ascii := ascii_of_N (48 + d).

Fixpoint digits_upto (fuel : nat) (n : N) : list ascii :=
  match fuel with
  | O => []
  | S fuel' =>
      if (n <? 10)%N then [digit_char n]
      else digits_upto fuel' (n / 10)%N ++ [digit_char (n mod 10)%N]
  end.

Definition N_digits (n : N) : list ascii := digits_upto (S (N.size_nat n)) n.

(** [repr(int)] *)
Definition int_chars (z : Z) : list ascii :=
  (if (z <? 0)%Z then ["-"%char] else []) ++ N_digits (Z.abs_N z).

Definition int_repr (z : Z) : string := string_of_list_ascii (int_chars z).

(** The least [k], searched from [k] upwards, with [den] dividing [10^k]. *)
Fixpoint decimal_places (fuel k : nat) (den : positive) : option nat :=
  if (10 ^ N.of_nat k mod N.pos den =? 0)%N then Some k
  else match fuel with
       | O => None
       | S fuel' => decimal_places fuel' (S k) den
       end.

(** A rational with a finite decimal expansion, as [m / 10^k]. *)
Definition float_digits (q : Q) : option (Z * nat) :=
  let q' := Qred q in
  match decimal_places (Pos.size_nat (Qden q')) 0 (Qden q') with
  | Some k => Some ((Qnum q' * (10 ^ Z.of_nat k / Z.pos (Qden q')))%Z, k)
  | None => None
  end.

Definition pad_zeros (k : nat) (ds : list ascii) : list ascii :=
  replicate (k - length ds) "0"%char ++ ds.

(** [repr(float)], in positional notation: integer part, point, fractional
    digits (CPython switches to exponent notation below 1e-4 and from 1e16
    on; that range is written positionally here). *)
Definition float_chars (q : Q) : list ascii :=
  match float_digits q with
  | Some (m, k) =>
      let scale := (10 ^ N.of_nat k)%N in
      let a := Z.abs_N m in
      (if (m <? 0)%Z then ["-"%char] else [])
      ++ N_digits (a / scale)%N ++ ["."%char]
      ++ match k with
         | O => ["0"%char]
         | S _ => pad_zeros k (N_digits (a mod scale)%N)
         end
  | None => list_ascii_of_string "nan"
  end.

Definition float_repr (q : Q) : string := string_of_list_ascii (float_chars q).

Definition hex_digit (n : nat) : ascii :=
  nth n (list_ascii_of_string "0123456789abcdef") "0"%char.

Definition str_contains (c : ascii) (s : string) : bool :=
  existsb (Ascii.eqb c) (list_ascii_of_string s).

(** One character of [repr(str)]; bytes from 0x80 on (UTF-8) are kept. *)
Definition repr_char (quote c : ascii) : string :=
  let n := nat_of_ascii c in
  if Ascii.eqb c quote || Ascii.eqb c backslash then String backslash (String c "")
  else if Ascii.eqb c tab then "\t"
  else if Ascii.eqb c newline then "\n"
  else if Ascii.eqb c carriage_return then "\r"
  else if (n <? 32)%nat || (n =? 127)%nat
       then String backslash (String "x" (String (hex_digit (n / 16)) (String (hex_digit (n mod 16)) "")))
  else String c "".

Definition str_repr (s : string) : string :=
  let quote := if str_contains squote s && negb (str_contains dquote s)
               then dquote else squote in
  String quote (String.concat "" (map (repr_char quote) (list_ascii_of_string s)))
  +:+ String quote "".

Fixpoint py_repr (v : value) : string :=
  match v with
  | VNone => "None"
  | VBool true => "True"
  | VBool false => "False"
  | VInt z => int_repr z
  | VFloat q => float_repr q
  | VStr s => str_repr s
  | VList l => "[" +:+ String.concat ", " (map py_repr l) +:+ "]"
  | VDict d =>
      "{" +:+ String.concat ", "
                (map (fun kv => str_repr (fst kv) +:+ ": " +:+ py_repr (snd kv)) d)
      +:+ "}"
  end.

(** [str(v)] *)
Definition py_str (v : value) : string :=
  match v with
  | VStr s => s
  | _ => py_repr v
  end.

(** ** [packaging.version]

    [parse_version] either yields a version or raises [InvalidVersion]
    ([None]); versions are compared with [<], a strict weak order. *)
Class VersionScheme := {
  version : Type;
  parse_version : string -> option version;
  version_lt : version -> version -> bool;
  version_lt_irrefl : forall a, version_lt a a = false;
  version_lt_trans : forall a b c,
    version_lt a b = true -> version_lt b c = true -> version_lt a c = true;
  version_lt_cotrans : forall a b c,
    version_lt a c = true -> version_lt a b = true \/ version_lt b c = true
}.

(** ** The prompt index *)

(** One [*.yaml] file as [_load_prompts] sees it: its base name, the clock
    reading taken while it is loaded, and what [yaml.safe_load] returned
    ([None] when opening or parsing raised). *)
Record yaml_file := {
  file_name : string;
  loaded_at : string;
  content : option value
}.

Abbreviation prompt_index := (gmap string (list pydict)).

Section Registry.
Context `{VersionScheme}.

(** Lines 52-63: the entry a file contributes and the identifier it is filed
    under, or [None] when the file is skipped.  A document that is not a
    mapping is always skipped: it is falsy, or [in] / indexing by a string
    raises and the [except] clause skips it. *)
Definition load_entry (f : yaml_file) : option (string * pydict) :=
  match content f with
  | Some (VDict data) =>
      if negb (py_truthy (VDict data)) then None
      else match dict_get data "prompt_id" with
           | None => None
           | Some p =>
               let pid := py_str p in
               let entry := dict_set "_source_file" (VStr (file_name f)) data in
               let entry := dict_set "_loaded_at" (VStr (loaded_at f)) entry in
               let entry := dict_setdefault "example_inputs" (VList []) entry in
               let entry := dict_setdefault "expected_output_schema" (VDict []) entry in
               Some (pid, entry)
           end
  | _ => None
  end.

(** Line 64: [_PROMPT_INDEX.setdefault(pid, []).append(entry)] *)
Definition index_add (index : prompt_index) (f : yaml_file) : prompt_index :=
  match load_entry f with
  | Some (pid, entry) => <[pid := default [] (index !! pid) ++ [entry]]> index
  | None => index
  end.

(** Line 71: the sort key [parse_version(str(x.get("version", "0.0.0")))] *)
Definition semantic_key (x : pydict) : option version :=
  parse_version (py_str (dict_get_or x "version" (VStr "0.0.0"))).

(** Line 74: the fallback key [str(x.get("version", ""))] *)
Definition lexical_key (x : pydict) : string :=
  py_str (dict_get_or x "version" (VStr "")).

(** Lines 70-74: every key is computed before the list is touched; if one
    [parse_version] raises, the list is sorted by the lexical key instead. *)
Definition sort_versions (versions : list pydict) : list pydict :=
  match mapM (fun x => (fun k => (k, x)) <$> semantic_key x) versions with
  | Some keyed => snd <$> sort_desc version_lt fst keyed
  | None => sort_desc str_lt lexical_key versions
  end.

(** [_load_prompts], over the files [glob] enumerates, in that order. *)
Definition _load_prompts (files : list yaml_file) : prompt_index :=
  sort_versions <$> foldl index_add ∅ files.

(** [get_prompt(prompt_id, version=None)] *)
Definition get_prompt (index : prompt_index) (prompt_id : string)
    (version : option string) : result pydict :=
  match index !! prompt_id with
  | None => Raise (KeyError ("prompt_id '" +:+ prompt_id +:+ "' not found"))
  | Some candidates =>
      match version with
      | None =>
          match candidates with
          | c :: _ => Ok c
          | [] => Raise IndexError
          end
      | Some ver =>
          match List.find (fun v => bool_decide (py_str (dict_get_or v "version" VNone) = ver))
                          candidates with
          | Some v => Ok v
          | None =>
              Raise (KeyError ("prompt_id '" +:+ prompt_id +:+ "' with version '"
                               +:+ ver +:+ "' not found"))
          end
      end
  end.

End Registry.

(** ** A reference version scheme: release-only versions

    The versions [N(.N)*] of PEP 440 (no epoch, pre-, post-, dev- or local
    part): the release numbers with trailing zeros dropped, compared as
    tuples.  Every other string is rejected. *)

Definition is_digit (c : ascii) : bool :=
  (48 <=? nat_of_ascii c)%nat && (nat_of_ascii c <=? 57)%nat.

Definition digit_value (c : ascii) : N := N.of_nat (nat_of_ascii c - 48).

Fixpoint parse_release (s : string) (cur : option N) (acc : list N) : option (list N) :=
  match s with
  | EmptyString =>
      match cur with
      | Some n => Some (rev (n :: acc))
      | None => None
      end
  | String c s' =>
      if is_digit c
      then parse_release s' (Some (10 * default 0 cur + digit_value c)%N) acc
      else if Ascii.eqb c "."
           then match cur with
                | Some n => parse_release s' None (n :: acc)
                | None => None
                end
           else None
  end.

Fixpoint drop_zeros (l : list N) : list N :=
  match l with
  | 0%N :: l' => drop_zeros l'
  | _ => l
  end.

Definition release_key (l : list N) : list N := rev (drop_zeros (rev l)).

Definition parse_release_version (s : string) : option (list N) :=
  release_key <$> parse_release s None [].

(** ** Text helpers *)

(** Whitespace as [str.strip()] and the regular expression [\s] see it
    (ASCII range). *)
Definition is_space (c : ascii) : bool :=
  let n := nat_of_ascii c in
  ((9 <=? n)%nat && (n <=? 13)%nat) || ((28 <=? n)%nat && (n <=? 32)%nat).

Fixpoint lstrip (l : list ascii) : list ascii :=
  match l with
  | c :: l' => if is_space c then lstrip l' else l
  | [] => []
  end.

Definition rstrip (l : list ascii) : list ascii := rev (lstrip (rev l)).

(** [s.strip()] *)
Definition py_strip (s : string) : string :=
  string_of_list_ascii (rstrip (lstrip (list_ascii_of_string s))).

(** ** [jinja2]: the modelled fragment

    [Template(text, undefined=StrictUndefined).render] on the inputs, for
    templates made of literal text and placeholders [{{ name }}].  Block
    tags, comments, filters, tests, expressions and the names Jinja binds
    itself are outside the fragment: [parse_template] reports them as
    [OutsideFragment] and nothing is claimed about them. *)

Inductive piece : Type :=
| Data (text : string)
| Print (name : string).

Inductive template : Type :=
| Template (pieces : list piece)
| BadSyntax
| OutsideFragment.

(** The lexer first turns every line ending into a line feed ... *)
Fixpoint unify_newlines (l : list ascii) : list ascii :=
  match l with
  | [] => []
  | c :: l' =>
      if Ascii.eqb c carriage_return
      then newline :: match l' with
                      | c2 :: l'' =>
                          if Ascii.eqb c2 newline then unify_newlines l''
                          else unify_newlines l'
                      | [] => []
                      end
      else c :: unify_newlines l'
  end.

(** ... and drops one trailing line feed ([keep_trailing_newline=False]). *)
Fixpoint drop_trailing_newline (l : list ascii) : list ascii :=
  match l with
  | [] => []
  | [c] => if Ascii.eqb c newline then [] else [c]
  | c :: l' => c :: drop_trailing_newline l'
  end.

Inductive opening : Type := OpenVariable | OpenOther.

(** Text up to the first of the delimiters [{{], [{%], [{#], and what
    follows the delimiter. *)
Fixpoint find_open (l : list ascii) : list ascii * option (opening * list ascii) :=
  match l with
  | [] => ([], None)
  | c :: l' =>
      match l' with
      | d :: l'' =>
          if Ascii.eqb c "{" && Ascii.eqb d "{" then ([], Some (OpenVariable, l''))
          else if Ascii.eqb c "{" && (Ascii.eqb d "%" || Ascii.eqb d "#")
               then ([], Some (OpenOther, l''))
               else let (text, rest) := find_open l' in (c :: text, rest)
      | [] => ([c], None)
      end
  end.

(** Text up to the first [}}], and what follows it. *)
Fixpoint find_close (l : list ascii) : option (list ascii * list ascii) :=
  match l with
  | [] => None
  | c :: l' =>
      match l' with
      | d :: l'' =>
          if Ascii.eqb c "}" && Ascii.eqb d "}" then Some ([], l'')
          else match find_close l' with
               | Some (inner, rest) => Some (c :: inner, rest)
               | None => None
               end
      | [] => None
      end
  end.

Definition is_name_start (c : ascii) : bool :=
  let n := nat_of_ascii c in
  ((65 <=? n)%nat && (n <=? 90)%nat) || ((97 <=? n)%nat && (n <=? 122)%nat)
  || (n =? 95)%nat.

Definition is_name_char (c : ascii) : bool :=
  is_name_start c || ((48 <=? nat_of_ascii c)%nat && (nat_of_ascii c <=? 57)%nat).

(** Names that are not plain variable references: literals, operators and
    statement keywords, the template's own [self], and the globals every
    Jinja environment binds. *)
Definition reserved_names : list string :=
  ["true"; "false"; "none"; "True"; "False"; "None";
   "and"; "or"; "not"; "in"; "is"; "if"; "else"; "elif"; "for"; "recursive";
   "block"; "extends"; "include"; "import"; "from"; "macro"; "call"; "filter";
   "set"; "with"; "without"; "context"; "as"; "do"; "continue"; "break";
   "self"; "super"; "loop"; "caller"; "varargs"; "kwargs";
   "range"; "dict"; "lipsum"; "cycler"; "joiner"; "namespace"].

(** The variable a placeholder prints, when its content is a single name
    surrounded by optional whitespace. *)
Definition placeholder_name (inner : list ascii) : option string :=
  match rstrip (lstrip inner) with
  | c :: l =>
      if is_name_start c && forallb is_name_char l
      then let name := string_of_list_ascii (c :: l) in
           if bool_decide (name ∈ reserved_names) then None else Some name
      else None
  | [] => None
  end.

Fixpoint parse_pieces (fuel : nat) (l : list ascii) : template :=
  match fuel with
  | O => OutsideFragment
  | S fuel' =>
      match find_open l with
      | (text, None) => Template [Data (string_of_list_ascii text)]
      | (_, Some (OpenOther, _)) => OutsideFragment
      | (text, Some (OpenVariable, rest)) =>
          match find_close rest with
          | None => BadSyntax
          | Some (inner, rest') =>
              match placeholder_name inner with
              | None => OutsideFragment
              | Some name =>
                  match parse_pieces fuel' rest' with
                  | Template ps =>
                      Template (Data (string_of_list_ascii text) :: Print name :: ps)
                  | other => other
                  end
              end
          end
      end
  end.

Definition parse_template (source : string) : template :=
  let l := drop_trailing_newline (unify_newlines (list_ascii_of_string source)) in
  parse_pieces (S (length l)) l.

(** Rendering under [StrictUndefined]: pieces are written in order and the
    first placeholder whose variable is unbound raises. *)
Fixpoint render_pieces (ps : list piece) (vars : pydict) : result string :=
  match ps with
  | [] => Ok ""
  | Data text :: ps' =>
      match render_pieces ps' vars with
      | Ok out => Ok (text +:+ out)
      | other => other
      end
  | Print name :: ps' =>
      match dict_get vars name with
      | None => Raise (UndefinedError name)
      | Some v =>
          match render_pieces ps' vars with
          | Ok out => Ok (py_str v +:+ out)
          | other => other
          end
      end
  end.

(** [Template(text, undefined=StrictUndefined).render] on the inputs
    passed as keyword arguments.  A keyword
    argument named [self] collides with the method's own parameter and a
    template that is not a string is not lexed at all: both are left
    outside the model. *)
Definition jinja_render (template_text : value) (inputs : pydict) : result string :=
  match template_text with
  | VStr source =>
      match dict_get inputs "self" with
      | Some _ => Unmodelled
      | None =>
          match parse_template source with
          | Template ps => render_pieces ps inputs
          | BadSyntax => Raise TemplateSyntaxError
          | OutsideFragment => Unmodelled
          end
      end
  | _ => Unmodelled
  end.

Section Render.
Context `{VersionScheme}.

(** [render_prompt(prompt_id, inputs, version=None)]; [inputs or {}] is
    [inputs] itself for a dictionary. *)
Definition render_prompt (index : prompt_index) (prompt_id : string)
    (inputs : pydict) (version : option string) : result string :=
  match get_prompt index prompt_id version with
  | Ok prompt =>
      let template_text := dict_get_or prompt "template" (VStr "") in
      jinja_render template_text inputs
  | Raise e => Raise e
  | Unmodelled => Unmodelled
  end.

End Render.

(** ** [jsonschema] and [json]: interfaces *)

(** What [jsonschema_validate(instance=..., schema=...)] does: return,
    raise [ValidationError] (whose [str] is the message), or raise
    something else (a [SchemaError] for a schema that is itself invalid). *)
Inductive validation : Type :=
| Valid
| Invalid (message : string)
| ValidatorRaises (e : exn).

Class SchemaValidator := {
  jsonschema_validate : value -> value -> validation;
  validation_message_nonempty : forall instance schema message,
    jsonschema_validate instance schema = Invalid message -> message <> ""
}.

Definition is_decimal (q : Q) : bool :=
  match float_digits q with
  | Some _ => true
  | None => false
  end.

(** Values that are Python values: floats are reduced fractions with a
    finite decimal expansion, dictionaries have no repeated key. *)
Fixpoint wf_value (v : value) : bool :=
  match v with
  | VFloat q =>
      bool_decide (Qnum (Qred q) = Qnum q) && bool_decide (Qden (Qred q) = Qden q)
      && is_decimal q
  | VList l => forallb wf_value l
  | VDict d =>
      bool_decide (NoDup (map fst d)) && forallb (fun kv => wf_value (snd kv)) d
  | _ => true
  end.

(** [json.dumps(v, ensure_ascii=False)] and [json.loads(s)] ([None] when it
    raises), with the properties the log format relies on: a document is
    read back as written, holds no line feed, and starts and ends with a
    character that is not whitespace. *)
Class JsonCodec := {
  json_dumps : value -> string;
  json_loads : string -> option value;
  json_loads_dumps : forall v, wf_value v = true -> json_loads (json_dumps v) = Some v;
  json_dumps_one_line : forall v, str_contains newline (json_dumps v) = false;
  json_dumps_stripped : forall v, py_strip (json_dumps v) = json_dumps v;
  json_dumps_nonempty : forall v, json_dumps v <> ""
}.

(** ** The usage log *)

(** [float(x)] for a number; [float] of a string parses the string, which
    is not modelled. *)
Definition py_float (x : value) : result Q :=
  match x with
  | VInt z => Ok (inject_Z z)
  | VFloat q => Ok q
  | VBool b => Ok (inject_Z (if b then 1 else 0))
  | VStr _ => Unmodelled
  | _ => Raise TypeError
  end.

(** Lines of a text file as iterating over it yields them, each with its
    line feed (the text is the file as Python reads it, after newline
    translation). *)
Fixpoint file_lines (l : list ascii) : list (list ascii) :=
  match l with
  | [] => []
  | c :: l' =>
      if Ascii.eqb c newline then [c] :: file_lines l'
      else match file_lines l' with
           | [] => [[c]]
           | line :: lines => (c :: line) :: lines
           end
  end.

Section UsageLog.
Context `{VersionScheme} `{SchemaValidator} `{JsonCodec}.

(** Lines 134-146: the note recorded for the response, if any. *)
Definition check_response (index : prompt_index) (prompt_id version : string)
    (response : pydict) : result (option string) :=
  match get_prompt index prompt_id (Some version) with
  | Ok prompt_meta =>
      let schema := dict_get_or prompt_meta "expected_output_schema" VNone in
      if py_truthy schema
      then match jsonschema_validate (VDict response) schema with
           | Valid => Ok None
           | Invalid message => Ok (Some message)
           | ValidatorRaises (KeyError _) => Ok (Some " prompt metadata not found.")
           | ValidatorRaises e => Raise e
           end
      else Ok None
  | Raise (KeyError _) => Ok (Some " prompt metadata not found.")
  | Raise e => Raise e
  | Unmodelled => Unmodelled
  end.

(** [log_usage]: the file before the call ([None] when it does not exist)
    and the clock reading; the record returned and the file afterwards. *)
Definition log_usage (index : prompt_index) (log : option string) (now : string)
    (prompt_id version : string) (input_data response : pydict)
    (latency_ms : value) (metadata : option pydict) : result (pydict * string) :=
  let file := default "" log in
  match check_response index prompt_id version response with
  | Ok validation_error =>
      match py_float latency_ms with
      | Ok latency =>
          let record :=
            [("timestamp", VStr now);
             ("prompt_id", VStr prompt_id);
             ("version", VStr version);
             ("input", VDict input_data);
             ("response", VDict response);
             ("latency_ms", VFloat latency);
             ("metadata", VDict (default [] metadata))] in
          let record :=
            match validation_error with
            | Some note =>
                if py_truthy (VStr note)
                then dict_set "metadata"
                       (VDict (dict_set "validation_error" (VStr note) (default [] metadata)))
                       record
                else record
            | None => record
            end in
          Ok (record, file +:+ json_dumps (VDict record) +:+ String newline "")
      | Raise e => Raise e
      | Unmodelled => Unmodelled
      end
  | Raise e => Raise e
  | Unmodelled => Unmodelled
  end.

(** The records [api_metrics] reads from the file: a line is stripped, a
    blank line and a line [json.loads] rejects are skipped. *)
Definition read_line (line : list ascii) : option value :=
  let line := py_strip (string_of_list_ascii line) in
  if bool_decide (line = "") then None else json_loads line.

Definition log_records (text : string) : list value :=
  omap read_line (file_lines (list_ascii_of_string text)).

End UsageLog.

(** ** Metrics *)

(** *** Comparison of values *)

Definition as_number (v : value) : option Q :=
  match v with
  | VInt z => Some (inject_Z z)
  | VFloat q => Some q
  | VBool b => Some (inject_Z (if b then 1 else 0))
  | _ => None
  end.

(** [a == b] *)
Fixpoint py_eq (a b : value) : bool :=
  match a, b with
  | VNone, VNone => true
  | VStr s, VStr t => bool_decide (s = t)
  | VList l, VList m =>
      (fix elems (l m : list value) : bool :=
         match l, m with
         | [], [] => true
         | x :: l', y :: m' => py_eq x y && elems l' m'
         | _, _ => false
         end) l m
  | VDict d, VDict e =>
      (length d =? length e)%nat
      && (fix items (d : pydict) : bool :=
            match d with
            | [] => true
            | kv :: d' =>
                match dict_get e (fst kv) with
                | Some w => py_eq (snd kv) w
                | None => false
                end && items d'
            end) d
  | _, _ =>
      match as_number a, as_number b with
      | Some p, Some q => Qeq_bool p q
      | _, _ => false
      end
  end.

(** [a > b]; [None] when Python raises [TypeError]. *)
Fixpoint py_gt (a b : value) : option bool :=
  match a, b with
  | VStr s, VStr t => Some (str_lt t s)
  | VList l, VList m =>
      (fix elems (l m : list value) : option bool :=
         match l, m with
         | [], _ => Some false
         | _ :: _, [] => Some true
         | x :: l', y :: m' => if py_eq x y then elems l' m' else py_gt x y
         end) l m
  | _, _ =>
      match as_number a, as_number b with
      | Some p, Some q => Some (negb (Qle_bool p q))
      | _, _ => None
      end
  end.

(** *** Dictionary keys

    The key a hashable value selects: numbers that compare equal ([1],
    [1.0], [True]) select the same key; lists and dictionaries are
    unhashable. *)
Inductive dkey : Type :=
| KNone
| KStr (s : string)
| KNum (num : Z) (den : positive).

#[global] Instance dkey_eq_dec : EqDecision dkey.
Proof. solve_decision. Defined.

#[global] Instance dkey_countable : Countable dkey.
Proof.
  refine (inj_countable'
            (fun k => match k with
                      | KNone => inl tt
                      | KStr s => inr (inl s)
                      | KNum n d => inr (inr (n, d))
                      end)
            (fun x => match x with
                      | inl _ => KNone
                      | inr (inl s) => KStr s
                      | inr (inr (n, d)) => KNum n d
                      end) _).
  intros []; reflexivity.
Defined.

Definition dkey_of (v : value) : option dkey :=
  match v with
  | VNone => Some KNone
  | VStr s => Some (KStr s)
  | VList _ | VDict _ => None
  | _ => match as_number v with
         | Some q => Some (KNum (Qnum (Qred q)) (Qden (Qred q)))
         | None => None
         end
  end.

(** *** The aggregator *)

(** The running entry of [agg] for one identifier (line 257). *)
Record entry_acc := {
  latencies : list Q;
  count : nat;
  last_seen : option value;
  latest_version : option value
}.

Definition new_entry : entry_acc :=
  {| latencies := []; count := 0; last_seen := None; latest_version := None |}.

(** One value of the [metrics] mapping (lines 299-304). *)
Record summary := {
  summary_count : nat;
  avg_latency_ms : option Q;
  summary_last_seen : option value;
  summary_latest_version : option value
}.

(** [statistics.mean]: the exact mean (the conversion of the result back
    to a float is not modelled). *)
Definition mean (xs : list Q) : Q :=
  Qred (fold_right Qplus 0 xs / inject_Z (Z.of_nat (length xs)))%Q.

Definition summarize (data : entry_acc) : summary :=
  {| summary_count := count data;
     avg_latency_ms := match latencies data with
                       | [] => None
                       | _ => Some (mean (latencies data))
                       end;
     summary_last_seen := last_seen data;
     summary_latest_version := latest_version data |}.

(** What [api_metrics] returns: the [metrics] mapping with an optional
    [note] and status 200, or the error body with status 500. *)
Inductive metrics_response : Type :=
| MetricsOk (metrics : gmap dkey summary) (note : option string)
| MetricsError.

Definition status_code (r : metrics_response) : nat :=
  match r with
  | MetricsOk _ _ => 200
  | MetricsError => 500
  end.

Section Metrics.
Context `{VersionScheme} `{JsonCodec}.

(** Lines 287 and 291: is [ver] newer than [latest]?  Both strings are
    parsed; if either parse raises, the strings are compared instead. *)
Definition newer_version (ver latest : value) : bool :=
  match parse_version (py_str ver), parse_version (py_str latest) with
  | Some a, Some b => version_lt b a
  | _, _ => str_lt (py_str latest) (py_str ver)
  end.

(** Lines 276-277: a latency that is an [int] or a [float] joins the
    list ([bool] is a subclass of [int]). *)
Definition add_latency (lats : list Q) (latency : value) : list Q :=
  match latency with
  | VInt _ | VFloat _ | VBool _ =>
      match as_number latency with
      | Some x => lats ++ [x]
      | None => lats
      end
  | _ => lats
  end.

(** Lines 281-282: the greater timestamp is kept; comparing timestamps of
    different kinds raises. *)
Definition update_last_seen (seen : option value) (ts : value) : result (option value) :=
  if py_truthy ts
  then match seen with
       | None => Ok (Some ts)
       | Some prev =>
           match py_gt ts prev with
           | Some true => Ok (Some ts)
           | Some false => Ok (Some prev)
           | None => Raise TypeError
           end
       end
  else Ok seen.

(** Lines 285-292 *)
Definition update_latest_version (latest : option value) (ver : value) : option value :=
  if py_truthy ver
  then match latest with
       | None => Some ver
       | Some cur => if newer_version ver cur then Some ver else Some cur
       end
  else latest.

(** Lines 270-292: one parsed record folded into [agg]. *)
Definition fold_record (agg : gmap dkey entry_acc) (rec : value)
    : result (gmap dkey entry_acc) :=
  match rec with
  | VDict r =>
      let pid := let p := dict_get_or r "prompt_id" VNone in
                 if py_truthy p then p else VStr "<unknown>" in
      let latency := dict_get_or r "latency_ms" VNone in
      let ts := dict_get_or r "timestamp" VNone in
      let ver := dict_get_or r "version" VNone in
      match dkey_of pid with
      | None => Raise TypeError
      | Some k =>
          let entry := default new_entry (agg !! k) in
          match update_last_seen (last_seen entry) ts with
          | Ok seen =>
              Ok (<[k := {| latencies := add_latency (latencies entry) latency;
                            count := S (count entry);
                            last_seen := seen;
                            latest_version :=
                              update_latest_version (latest_version entry) ver |}]> agg)
          | Raise e => Raise e
          | Unmodelled => Unmodelled
          end
      end
  | _ => Raise AttributeError
  end.

(** Lines 260-268: one line of the file. *)
Definition fold_line (agg : gmap dkey entry_acc) (line : list ascii)
    : result (gmap dkey entry_acc) :=
  let line := py_strip (string_of_list_ascii line) in
  if bool_decide (line = "") then Ok agg
  else match json_loads line with
       | None => Ok agg
       | Some rec => fold_record agg rec
       end.

Fixpoint fold_lines (agg : gmap dkey entry_acc) (lines : list (list ascii))
    : result (gmap dkey entry_acc) :=
  match lines with
  | [] => Ok agg
  | line :: lines' =>
      match fold_line agg line with
      | Ok agg' => fold_lines agg' lines'
      | other => other
      end
  end.

(** [api_metrics], on the usage file ([None] when it does not exist). *)
Definition api_metrics (log : option string) : metrics_response :=
  match log with
  | None => MetricsOk ∅ (Some "no usage file found")
  | Some text =>
      match fold_lines ∅ (file_lines (list_ascii_of_string text)) with
      | Ok agg => MetricsOk (summarize <$> agg) None
      | _ => MetricsError
      end
  end.

End Metrics.

(** ** The HTTP handlers

    A handler returns [jsonify(body)] with a status, calls [abort] with a
    status and a description, or lets an exception escape (Flask then
    answers with status 500).  The request is what Flask hands to the
    handler: the identifier from the path, the [version] query argument,
    and the body as [request.get_json(force=True, silent=True)] returns
    it ([None] when the body is not JSON). *)

(** The descriptions passed to [abort]: ["Prompt not found"],
    ["Prompt or version not found"], ["Missing JSON body"],
    ["Missing required fields: version, latency_ms"], and
    ["Template render error: "] followed by the text of the exception. *)
Inductive description : Type :=
| PromptNotFound
| VersionNotFound
| MissingBody
| MissingFields
| RenderError (e : exn).

Inductive http : Type :=
| Json (status : nat) (body : value)
| Abort (status : nat) (why : description)
| Escapes (e : exn)
| OutsideModel.

(** The [version] argument of [get_prompt] when it is read from a JSON
    body: [None] selects the first entry, every other value is compared
    through [str]. *)
Definition requested_version (version : value) : option string :=
  match version with
  | VNone => None
  | v => Some (py_str v)
  end.

Section Handlers.
Context `{VersionScheme} `{SchemaValidator} `{JsonCodec}.




(** [metadata or {}] for the [metadata] of a request; a truthy value that
    is not a mapping is outside the model. *)
Definition request_metadata (metadata : value) : option (option pydict) :=
  if negb (py_truthy metadata) then Some None
  else match metadata with
       | VDict d => Some (Some d)
       | _ => None
       end.

(** Lines 213-238: the answer, and the usage file after the request.  The
    call of [log_usage] is modelled for a [version] that is a string and
    [input] and [response] that are objects. *)
Definition api_log_usage (index : prompt_index) (log : option string) (now : string)
    (prompt_id : string) (body : option value) : http * option string :=
  match body with
  | None => (Abort 400 MissingBody, log)
  | Some b =>
      if negb (py_truthy b) then (Abort 400 MissingBody, log)
      else match b with
           | VDict d =>
               let version := dict_get_or d "version" VNone in
               let input_data := dict_get_or d "input" (VDict []) in
               let response := dict_get_or d "response" (VDict []) in
               let latency_ms := dict_get_or d "latency_ms" VNone in
               let metadata := dict_get_or d "metadata" (VDict []) in
               match requested_version version, latency_ms with
               | None, _ | _, VNone => (Abort 400 MissingFields, log)
               | Some v, _ =>
                   match get_prompt index prompt_id (Some v) with
                   | Raise (KeyError _) => (Abort 404 VersionNotFound, log)
                   | Raise e => (Escapes e, log)
                   | Unmodelled => (OutsideModel, log)
                   | Ok _ =>
                       match version, input_data, response, request_metadata metadata with
                       | VStr ver, VDict input, VDict resp, Some meta =>
                           match log_usage index log now prompt_id ver input resp
                                   latency_ms meta with
                           | Ok (rec, file') =>
                               (Json 200 (VDict [("status", VStr "ok");
                                                 ("record", VDict rec)]),
                                Some file')
                           | Raise e => (Escapes e, Some (default "" log))
                           | Unmodelled => (OutsideModel, log)
                           end
                       | _, _, _, _ => (OutsideModel, log)
                       end
                   end
               end
           | _ => (Escapes AttributeError, log)
           end
  end.

End Handlers.

(** ** A reference JSON codec

    A printer and a parser for the JSON text [json.dumps] writes and
    [json.loads] reads, over byte strings.  Outside it: the literals [NaN]
    and [Infinity], and [\u] escapes that denote a lone surrogate (the
    parser rejects them). *)

Fixpoint join (sep : list ascii) (parts : list (list ascii)) : list ascii :=
  match parts with
  | [] => []
  | [p] => p
  | p :: ps => p ++ sep ++ join sep ps
  end.

(** One character inside a JSON string ([ensure_ascii=False]). *)
Definition json_escape (c : ascii) : list ascii :=
  let n := nat_of_ascii c in
  if Ascii.eqb c dquote then [backslash; dquote]
  else if Ascii.eqb c backslash then [backslash; backslash]
  else if Ascii.eqb c newline then [backslash; "n"%char]
  else if Ascii.eqb c carriage_return then [backslash; "r"%char]
  else if Ascii.eqb c tab then [backslash; "t"%char]
  else if (n =? 8)%nat then [backslash; "b"%char]
  else if (n =? 12)%nat then [backslash; "f"%char]
  else if (n <? 32)%nat
       then [backslash; "u"%char; "0"%char; "0"%char;
             hex_digit (n / 16); hex_digit (n mod 16)]
       else [c].

Definition print_string (s : string) : list ascii :=
  dquote :: flat_map json_escape (list_ascii_of_string s) ++ [dquote].

Definition comma : list ascii := [","%char; " "%char].
Definition colon : list ascii := [":"%char; " "%char].

Fixpoint print_value (v : value) : list ascii :=
  match v with
  | VNone => list_ascii_of_string "null"
  | VBool true => list_ascii_of_string "true"
  | VBool false => list_ascii_of_string "false"
  | VInt z => int_chars z
  | VFloat q => float_chars q
  | VStr s => print_string s
  | VList l => "["%char :: join comma (map print_value l) ++ ["]"%char]
  | VDict d =>
      "{"%char
      :: join comma (map (fun kv => print_string (fst kv) ++ colon ++ print_value (snd kv)) d)
      ++ ["}"%char]
  end.

Definition is_json_space (c : ascii) : bool :=
  Ascii.eqb c " " || Ascii.eqb c tab || Ascii.eqb c newline || Ascii.eqb c carriage_return.

Fixpoint skip_ws (l : list ascii) : list ascii :=
  match l with
  | c :: l' => if is_json_space c then skip_ws l' else l
  | [] => []
  end.

Definition hex_value (c : ascii) : option N :=
  let n := N_of_ascii c in
  if (48 <=? n)%N && (n <=? 57)%N then Some (n - 48)%N
  else if (97 <=? n)%N && (n <=? 102)%N then Some (n - 87)%N
  else if (65 <=? n)%N && (n <=? 70)%N then Some (n - 55)%N
  else None.

Definition hex4 (a b c d : ascii) : option N :=
  match hex_value a, hex_value b, hex_value c, hex_value d with
  | Some x, Some y, Some z, Some w => Some (((x * 16 + y) * 16 + z) * 16 + w)%N
  | _, _, _, _ => None
  end.

(** The UTF-8 bytes of a code point. *)
Definition utf8_encode (u : N) : list ascii :=
  if (u <? 128)%N then [ascii_of_N u]
  else if (u <? 2048)%N
       then [ascii_of_N (192 + u / 64); ascii_of_N (128 + u mod 64)]
  else if (u <? 65536)%N
       then [ascii_of_N (224 + u / 4096); ascii_of_N (128 + (u / 64) mod 64);
             ascii_of_N (128 + u mod 64)]
  else [ascii_of_N (240 + u / 262144); ascii_of_N (128 + (u / 4096) mod 64);
        ascii_of_N (128 + (u / 64) mod 64); ascii_of_N (128 + u mod 64)].

Definition is_high_surrogate (u : N) : bool := (55296 <=? u)%N && (u <=? 56319)%N.
Definition is_low_surrogate (u : N) : bool := (56320 <=? u)%N && (u <=? 57343)%N.

Definition unescape (c : ascii) : option ascii :=
  if Ascii.eqb c dquote then Some dquote
  else if Ascii.eqb c backslash then Some backslash
  else if Ascii.eqb c "/" then Some "/"%char
  else if Ascii.eqb c "b" then Some "008"%char
  else if Ascii.eqb c "f" then Some "012"%char
  else if Ascii.eqb c "n" then Some newline
  else if Ascii.eqb c "r" then Some carriage_return
  else if Ascii.eqb c "t" then Some tab
  else None.

Definition prepend {A B : Type} (xs : list A) (r : option (list A * B)) : option (list A * B) :=
  match r with
  | Some (ys, rest) => Some (xs ++ ys, rest)
  | None => None
  end.

(** The characters of a string literal after its opening quote, and what
    follows the closing quote. *)
Fixpoint parse_string_body (l : list ascii) : option (list ascii * list ascii) :=
  match l with
  | [] => None
  | c :: r =>
      if Ascii.eqb c dquote then Some ([], r)
      else if Ascii.eqb c backslash then
        match r with
        | [] => None
        | e :: r1 =>
            if Ascii.eqb e "u" then
              match r1 with
              | h1 :: h2 :: h3 :: h4 :: r2 =>
                  match hex4 h1 h2 h3 h4 with
                  | None => None
                  | Some u =>
                      if is_high_surrogate u then
                        match r2 with
                        | b :: x :: g1 :: g2 :: g3 :: g4 :: r3 =>
                            if Ascii.eqb b backslash && Ascii.eqb x "u" then
                              match hex4 g1 g2 g3 g4 with
                              | Some lo =>
                                  if is_low_surrogate lo
                                  then prepend
                                         (utf8_encode (65536 + (u - 55296) * 1024 + (lo - 56320))%N)
                                         (parse_string_body r3)
                                  else None
                              | None => None
                              end
                            else None
                        | _ => None
                        end
                      else if is_low_surrogate u then None
                      else prepend (utf8_encode u) (parse_string_body r2)
                  end
              | _ => None
              end
            else match unescape e with
                 | Some ch => prepend [ch] (parse_string_body r1)
                 | None => None
                 end
        end
      else if (nat_of_ascii c <? 32)%nat then None
      else prepend [c] (parse_string_body r)
  end.

Fixpoint span_digits (l : list ascii) : list ascii * list ascii :=
  match l with
  | c :: l' =>
      if is_digit c then let (ds, r) := span_digits l' in (c :: ds, r)
      else ([], l)
  | [] => ([], [])
  end.

Definition digits_value (ds : list ascii) : N :=
  fold_left (fun acc c => (10 * acc + digit_value c)%N) ds 0%N.

(** The float [m * 10^e], up to sign. *)
Definition decimal_Q (negative : bool) (m : N) (e : Z) : Q :=
  let n := if negative then (- Z.of_N m)%Z else Z.of_N m in
  Qred (if (0 <=? e)%Z then inject_Z (n * 10 ^ e)
        else Qmake n (Z.to_pos (10 ^ (- e))))%Z.

(** A number: an optional minus sign; a zero, or digits that do not start
    with a zero; an optional point with digits; an optional exponent.  It
    is an [int] when it has neither fraction nor exponent and a [float]
    otherwise. *)
Definition take_sign (l : list ascii) : bool * list ascii :=
  match l with
  | c :: r => if Ascii.eqb c "-" then (true, r) else (false, l)
  | [] => (false, l)
  end.

Definition take_int (l : list ascii) : list ascii * list ascii :=
  match l with
  | c :: r => if Ascii.eqb c "0" then ([c], r) else span_digits l
  | [] => ([], [])
  end.

Definition take_frac (l : list ascii) : list ascii * list ascii :=
  match l with
  | c :: r =>
      if Ascii.eqb c "." then
        match span_digits r with
        | ([], _) => ([], l)
        | (ds, r') => (ds, r')
        end
      else ([], l)
  | [] => ([], l)
  end.

Definition take_exp (l : list ascii) : option Z * list ascii :=
  match l with
  | c :: r =>
      if Ascii.eqb c "e" || Ascii.eqb c "E" then
        let '(minus, r1) :=
          match r with
          | s :: r' =>
              if Ascii.eqb s "-" then (true, r')
              else if Ascii.eqb s "+" then (false, r')
              else (false, r)
          | [] => (false, r)
          end in
        match span_digits r1 with
        | ([], _) => (None, l)
        | (ds, r2) =>
            (Some (if minus then (- Z.of_N (digits_value ds))%Z
                   else Z.of_N (digits_value ds)), r2)
        end
      else (None, l)
  | [] => (None, l)
  end.

Definition parse_number (l : list ascii) : option (value * list ascii) :=
  let '(negative, l1) := take_sign l in
  let '(int_part, l2) := take_int l1 in
  match int_part with
  | [] => None
  | _ :: _ =>
      let '(frac, l3) := take_frac l2 in
      let '(expo, l4) := take_exp l3 in
      match frac, expo with
      | [], None =>
          Some (VInt (if negative then (- Z.of_N (digits_value int_part))%Z
                      else Z.of_N (digits_value int_part)), l4)
      | _, _ =>
          Some (VFloat (decimal_Q negative (digits_value (int_part ++ frac))
                          (default 0%Z expo - Z.of_nat (length frac))), l4)
      end
  end.

(** [dict(pairs)]: a repeated key keeps its first position and its last
    value. *)
Definition dict_of_pairs (pairs : pydict) : pydict :=
  fold_left (fun d kv => dict_set (fst kv) (snd kv) d) pairs [].

Fixpoint parse_value (fuel : nat) (l : list ascii) {struct fuel}
    : option (value * list ascii) :=
  match fuel with
  | O => None
  | S fuel' =>
      match l with
      | [] => None
      | c :: r =>
          if Ascii.eqb c dquote then
            match parse_string_body r with
            | Some (s, r') => Some (VStr (string_of_list_ascii s), r')
            | None => None
            end
          else if Ascii.eqb c "{" then
            match skip_ws r with
            | c2 :: r2 =>
                if Ascii.eqb c2 "}" then Some (VDict [], r2)
                else match parse_members fuel' (c2 :: r2) with
                     | Some (pairs, r') => Some (VDict (dict_of_pairs pairs), r')
                     | None => None
                     end
            | [] => None
            end
          else if Ascii.eqb c "[" then
            match skip_ws r with
            | c2 :: r2 =>
                if Ascii.eqb c2 "]" then Some (VList [], r2)
                else match parse_elements fuel' (c2 :: r2) with
                     | Some (vs, r') => Some (VList vs, r')
                     | None => None
                     end
            | [] => None
            end
          else
            match l with
            | "n"%char :: "u"%char :: "l"%char :: "l"%char :: r' => Some (VNone, r')
            | "t"%char :: "r"%char :: "u"%char :: "e"%char :: r' => Some (VBool true, r')
            | "f"%char :: "a"%char :: "l"%char :: "s"%char :: "e"%char :: r' =>
                Some (VBool false, r')
            | _ => parse_number l
            end
      end
  end
with parse_elements (fuel : nat) (l : list ascii) {struct fuel}
    : option (list value * list ascii) :=
  match fuel with
  | O => None
  | S fuel' =>
      match parse_value fuel' l with
      | Some (v, r) =>
          match skip_ws r with
          | c :: r' =>
              if Ascii.eqb c "," then
                match parse_elements fuel' (skip_ws r') with
                | Some (vs, r'') => Some (v :: vs, r'')
                | None => None
                end
              else if Ascii.eqb c "]" then Some ([v], r')
              else None
          | [] => None
          end
      | None => None
      end
  end
with parse_members (fuel : nat) (l : list ascii) {struct fuel}
    : option (pydict * list ascii) :=
  match fuel with
  | O => None
  | S fuel' =>
      match l with
      | q :: r =>
          if Ascii.eqb q dquote then
            match parse_string_body r with
            | Some (k, r1) =>
                match skip_ws r1 with
                | c :: r2 =>
                    if Ascii.eqb c ":" then
                      match parse_value fuel' (skip_ws r2) with
                      | Some (v, r3) =>
                          match skip_ws r3 with
                          | c' :: r4 =>
                              if Ascii.eqb c' "," then
                                match parse_members fuel' (skip_ws r4) with
                                | Some (ms, r5) =>
                                    Some ((string_of_list_ascii k, v) :: ms, r5)
                                | None => None
                                end
                              else if Ascii.eqb c' "}"
                                   then Some ([(string_of_list_ascii k, v)], r4)
                                   else None
                          | [] => None
                          end
                      | None => None
                      end
                    else None
                | [] => None
                end
            | None => None
            end
          else None
      | [] => None
      end
  end.

Definition simple_dumps (v : value) : string :=
  string_of_list_ascii (print_value v).

Definition simple_loads (s : string) : option value :=
  let l := skip_ws (list_ascii_of_string s) in
  match parse_value (S (length l)) l with
  | Some (v, r) =>
      match skip_ws r with
      | [] => Some v
      | _ :: _ => None
      end
  | None => None
  end.

(** ** A reference validator: the keyword [type]

    [jsonschema.validate] on the schemas that hold the keyword [type]
    alone, with one type name or a list of them.  It first checks the
    schema (a schema is an object or a boolean; a type name is one of the
    seven of JSON Schema; a list of names is non-empty and without
    repetition) and raises [SchemaError] when the check fails; it then
    checks the instance and raises [ValidationError].  The message is the
    first line of the text of the exception; the lines that follow it,
    which quote the schema and the instance, are left out. *)

Definition json_types : list string :=
  ["array"; "boolean"; "integer"; "null"; "number"; "object"; "string"].

Definition is_integral (q : Q) : bool := (Zpos (Qden (Qred q)) =? 1)%Z.

Definition has_type (instance : value) (t : string) : bool :=
  match instance with
  | VNone => String.eqb t "null"
  | VBool _ => String.eqb t "boolean"
  | VInt _ => String.eqb t "integer" || String.eqb t "number"
  | VFloat q => String.eqb t "number" || (String.eqb t "integer" && is_integral q)
  | VStr _ => String.eqb t "string"
  | VList _ => String.eqb t "array"
  | VDict _ => String.eqb t "object"
  end.

Definition type_name (v : value) : option string :=
  match v with
  | VStr t => if bool_decide (t ∈ json_types) then Some t else None
  | _ => None
  end.

(** The names the keyword [type] allows; [None] for an invalid schema. *)
Definition allowed_types (schema : pydict) : option (list string) :=
  match dict_get schema "type" with
  | None => Some json_types
  | Some (VList names) =>
      match mapM type_name names with
      | Some (t :: ts) => if bool_decide (NoDup (t :: ts)) then Some (t :: ts) else None
      | _ => None
      end
  | Some v => (fun t => [t]) <$> type_name v
  end.

Definition type_validate (instance schema : value) : validation :=
  match schema with
  | VBool true => Valid
  | VBool false => Invalid ("False schema does not allow " +:+ py_repr instance)
  | VDict s =>
      match allowed_types s with
      | Some names =>
          if existsb (has_type instance) names then Valid
          else Invalid (py_repr instance +:+ " is not of type "
                        +:+ string_of_list_ascii
                              (join (list_ascii_of_string ", ")
                                 (map (fun t => list_ascii_of_string (str_repr t)) names)))
      | None => ValidatorRaises SchemaError
      end
  | _ => ValidatorRaises SchemaError
  end.

(** * Properties *)

(** ** Orders *)

Lemma lex_lt_irrefl a : lex_lt a a = false.
Proof.
  induction a as [|x a IH]; simpl; [done|].
  rewrite N.ltb_irrefl. exact IH.
Qed.

Lemma lex_lt_total a b : lex_lt a b = true \/ a = b \/ lex_lt b a = true.
Proof.
  revert b. induction a as [|x a IH]; intros [|y b]; simpl; auto.
  destruct (N.ltb_spec x y) as [Hxy|Hxy]; [auto|].
  destruct (N.ltb_spec y x) as [Hyx|Hyx]; [auto|].
  assert (x = y) as -> by lia.
  destruct (IH b) as [?|[->|?]]; auto.
Qed.

Lemma lex_lt_trans a b c :
  lex_lt a b = true -> lex_lt b c = true -> lex_lt a c = true.
Proof.
  revert b c. induction a as [|x a IH]; intros [|y b] [|z c]; simpl; try done.
  destruct (N.ltb_spec x y), (N.ltb_spec y x), (N.ltb_spec y z), (N.ltb_spec z y),
    (N.ltb_spec x z), (N.ltb_spec z x); try done; try lia.
  apply IH.
Qed.

Lemma lex_lt_cotrans a b c :
  lex_lt a c = true -> lex_lt a b = true \/ lex_lt b c = true.
Proof.
  intros Hac. destruct (lex_lt_total a b) as [?|[->|Hba]]; auto.
  right. eapply lex_lt_trans; eauto.
Qed.

Lemma str_lt_irrefl s : str_lt s s = false.
Proof. apply lex_lt_irrefl. Qed.

Lemma str_lt_trans s t u : str_lt s t = true -> str_lt t u = true -> str_lt s u = true.
Proof. apply lex_lt_trans. Qed.

Lemma str_lt_cotrans s t u : str_lt s u = true -> str_lt s t = true \/ str_lt t u = true.
Proof. apply lex_lt_cotrans. Qed.

(** The release-only scheme is a version scheme. *)
#[local] Instance release_versions : VersionScheme := {|
  version := list N;
  parse_version := parse_release_version;
  version_lt := lex_lt;
  version_lt_irrefl := lex_lt_irrefl;
  version_lt_trans := lex_lt_trans;
  version_lt_cotrans := lex_lt_cotrans
|}.

(** ** The stable descending sort *)

Section SortFacts.
Context {A K : Type} (lt : K -> K -> bool) (key : A -> K).
Hypothesis lt_irrefl : forall a, lt a a = false.
Hypothesis lt_trans : forall a b c, lt a b = true -> lt b c = true -> lt a c = true.
Hypothesis lt_cotrans : forall a b c, lt a c = true -> lt a b = true \/ lt b c = true.

(** [x] is not below [y]: the order of a descending list. *)
Definition not_below (x y : A) : Prop := lt (key x) (key y) = false.

Lemma not_below_trans x y z : not_below x y -> not_below y z -> not_below x z.
Proof.
  unfold not_below. intros Hxy Hyz.
  destruct (lt (key x) (key z)) eqn:Hxz; [|done].
  destruct (lt_cotrans _ (key y) _ Hxz); congruence.
Qed.

Lemma lt_asym a b : lt a b = true -> lt b a = false.
Proof.
  intros Hab. destruct (lt b a) eqn:Hba; [|done].
  pose proof (lt_trans _ _ _ Hab Hba) as Haa. rewrite lt_irrefl in Haa. done.
Qed.

Lemma insert_desc_perm x l : insert_desc lt key x l ≡ₚ x :: l.
Proof.
  induction l as [|y l IH]; simpl; [done|].
  destruct (lt (key x) (key y)); [|done].
  rewrite IH. apply Permutation_swap.
Qed.

Lemma sort_desc_perm l : sort_desc lt key l ≡ₚ l.
Proof.
  induction l as [|x l IH]; simpl; [done|].
  rewrite insert_desc_perm. by rewrite IH.
Qed.

Lemma insert_desc_sorted x l :
  StronglySorted not_below l -> StronglySorted not_below (insert_desc lt key x l).
Proof.
  induction 1 as [|y l Hl IH Hy]; simpl.
  - repeat constructor.
  - destruct (lt (key x) (key y)) eqn:Hxy.
    + constructor; [done|].
      rewrite insert_desc_perm. constructor; [|done].
      by apply lt_asym.
    + constructor; [by constructor|].
      constructor; [done|].
      eapply Forall_impl; [exact Hy|].
      intros z Hz. eapply not_below_trans; eauto.
Qed.

Lemma sort_desc_sorted l : StronglySorted not_below (sort_desc lt key l).
Proof.
  induction l as [|x l IH]; simpl; [constructor|].
  by apply insert_desc_sorted.
Qed.

Lemma sort_desc_head_max l h t :
  sort_desc lt key l = h :: t -> forall x, x ∈ l -> not_below h x.
Proof.
  intros Hs x Hx.
  pose proof (sort_desc_sorted l) as Hsorted. rewrite Hs in Hsorted.
  apply StronglySorted_inv in Hsorted as [_ Hall].
  rewrite <- (sort_desc_perm l), Hs in Hx.
  apply elem_of_cons in Hx as [->|Hx].
  - apply lt_irrefl.
  - rewrite Forall_forall in Hall. by apply Hall.
Qed.

End SortFacts.

(** ** The prompt index *)

Section RegistryFacts.
Context `{VersionScheme}.

(** The entries filed under [pid], in the order the files are read. *)
Definition entries_for (pid : string) (files : list yaml_file) : list pydict :=
  omap (fun f => match load_entry f with
                 | Some (p, entry) => if decide (p = pid) then Some entry else None
                 | None => None
                 end) files.

Lemma foldl_index_add_lookup files (index : prompt_index) pid :
  foldl index_add index files !! pid =
    match entries_for pid files with
    | [] => index !! pid
    | new => Some (default [] (index !! pid) ++ new)
    end.
Proof.
  revert index. induction files as [|f files IH]; intros index; simpl; [done|].
  rewrite IH. unfold index_add, entries_for. simpl.
  destruct (load_entry f) as [[p entry]|]; [|done].
  destruct (decide (p = pid)) as [->|Hne]; simpl.
  - rewrite lookup_insert_eq. simpl.
    fold (entries_for pid files).
    destruct (entries_for pid files) as [|e es]; simpl.
    + destruct (index !! pid); simpl; by rewrite ?app_nil_r.
    + by rewrite <- app_assoc.
  - by rewrite lookup_insert_ne.
Qed.

Lemma load_prompts_lookup files pid :
  _load_prompts files !! pid =
    match entries_for pid files with
    | [] => None
    | group => Some (sort_versions group)
    end.
Proof.
  unfold _load_prompts. rewrite lookup_fmap, foldl_index_add_lookup.
  rewrite lookup_empty. by destruct (entries_for pid files).
Qed.

(** The semantic order of two entries, where both versions parse. *)
Definition semver_lt (x y : pydict) : bool :=
  match semantic_key x, semantic_key y with
  | Some a, Some b => version_lt a b
  | _, _ => false
  end.

Lemma keyed_spec versions keyed :
  mapM (fun x => (fun k => (k, x)) <$> semantic_key x) versions = Some keyed ->
  snd <$> keyed = versions /\
  Forall (fun kx => semantic_key (snd kx) = Some (fst kx)) keyed.
Proof.
  rewrite mapM_Some. induction 1 as [|x kx versions keyed Hx _ [IH1 IH2]]; [done|].
  destruct (semantic_key x) as [k|] eqn:Hk; simplify_eq/=.
  split; [by f_equal|]. by constructor.
Qed.

Lemma sort_versions_perm versions : sort_versions versions ≡ₚ versions.
Proof.
  unfold sort_versions.
  destruct (mapM _ versions) as [keyed|] eqn:Hm.
  - apply keyed_spec in Hm as [<- _].
    by rewrite sort_desc_perm.
  - apply sort_desc_perm.
Qed.

(** All versions parse: the list is in descending semantic order. *)
Lemma sort_versions_semantic versions :
  Forall (fun x => is_Some (semantic_key x)) versions ->
  StronglySorted (fun x y => semver_lt x y = false) (sort_versions versions).
Proof.
  intros Hall. unfold sort_versions.
  destruct (mapM _ versions) as [keyed|] eqn:Hm.
  - apply keyed_spec in Hm as [_ Hkeys].
    pose proof (sort_desc_sorted version_lt fst version_lt_irrefl version_lt_trans
                  version_lt_cotrans keyed) as Hs.
    assert (Forall (fun kx => semantic_key (snd kx) = Some (fst kx))
              (sort_desc version_lt fst keyed)) as Hk.
    { by rewrite sort_desc_perm. }
    induction Hs as [|kx l Hl IH Hx]; [constructor|].
    apply Forall_cons in Hk as [Hkx Hk]. simpl. constructor; [by apply IH|].
    rewrite Forall_fmap. rewrite Forall_forall in Hx, Hk.
    apply Forall_forall. intros ky Hy. simpl. unfold semver_lt.
    rewrite Hkx, (Hk _ Hy). by apply Hx.
  - exfalso. apply eq_None_not_Some in Hm. apply Hm.
    apply mapM_is_Some. eapply Forall_impl; [exact Hall|].
    intros x [k Hk]. simpl. rewrite Hk. by eexists.
Qed.

(** Some version does not parse: the list is in descending order of the
    fallback key. *)
Lemma sort_versions_lexical versions :
  ~ Forall (fun x => is_Some (semantic_key x)) versions ->
  sort_versions versions = sort_desc str_lt lexical_key versions.
Proof.
  intros Hnot. unfold sort_versions.
  destruct (mapM _ versions) as [keyed|] eqn:Hm; [|done].
  exfalso. apply Hnot.
  assert (is_Some (mapM (fun x => (fun k => (k, x)) <$> semantic_key x) versions)) as Hs
    by (by eexists).
  apply mapM_is_Some in Hs. eapply Forall_impl; [exact Hs|].
  intros x [kx Hx]. simpl in Hx. destruct (semantic_key x); [by eexists|done].
Qed.

End RegistryFacts.

(** ** Version resolution *)

(** The string [get_prompt] compares with the requested version (line 94). *)
Definition version_string (e : pydict) : string :=
  py_str (dict_get_or e "version" VNone).


Lemma find_exact candidates v :
  match List.find (fun e => bool_decide (version_string e = v)) candidates with
  | Some e =>
      exists before after,
        candidates = before ++ e :: after /\ version_string e = v /\
        Forall (fun e' => version_string e' <> v) before
  | None => Forall (fun e => version_string e <> v) candidates
  end.
Proof.
  induction candidates as [|c cs IH]; simpl; [constructor|].
  case_bool_decide as Hc.
  - exists [], cs. auto.
  - destruct (List.find _ cs) as [e|].
    + destruct IH as (before & after & -> & He & Hb).
      exists (c :: before), after. auto.
    + by constructor.
Qed.


Section LatestVersion.
Context `{VersionScheme}.

(** [e] is an entry of [group] that no entry of [group] exceeds in the
    semantic order. *)
Definition semver_maximal (e : pydict) (group : list pydict) : Prop :=
  e ∈ group /\ forall e', e' ∈ group -> semver_lt e e' = false.

Lemma load_prompts_group files pid group :
  _load_prompts files !! pid = Some group ->
  exists loaded, loaded <> [] /\ loaded = entries_for pid files
                 /\ group = sort_versions loaded.
Proof.
  rewrite load_prompts_lookup.
  destruct (entries_for pid files) as [|e es] eqn:He; [done|].
  intros [= <-]. by exists (e :: es).
Qed.

(** C1 (amended). For an identifier of the loaded index whose version
    strings all parse, [get_prompt] without a version returns the first
    entry of the group, and no entry of the group has a greater semantic
    version. *)
Theorem get_prompt_latest_semver_maximal files pid group :
  _load_prompts files !! pid = Some group ->
  Forall (fun x => is_Some (semantic_key x)) group ->
  exists e, get_prompt (_load_prompts files) pid None = Ok e
            /\ head group = Some e /\ semver_maximal e group.
Proof.
  intros Hg Hparse. unfold get_prompt. rewrite Hg.
  destruct (load_prompts_group _ _ _ Hg) as (loaded & Hne & _ & ->).
  pose proof (sort_versions_perm loaded) as Hperm.
  assert (Forall (fun x => is_Some (semantic_key x)) loaded) as Hloaded
    by (by rewrite <- Hperm).
  pose proof (sort_versions_semantic loaded Hloaded) as Hsorted.
  destruct (sort_versions loaded) as [|e rest] eqn:Hs.
  { apply Permutation_nil_l in Hperm. congruence. }
  exists e. split; [done|]. split; [done|]. split; [apply elem_of_cons; auto|].
  intros e' He'. apply StronglySorted_inv in Hsorted as [_ Hall].
  apply elem_of_cons in He' as [->|He'].
  - unfold semver_lt. destruct (semantic_key e); [apply version_lt_irrefl|done].
  - rewrite Forall_forall in Hall. by apply Hall.
Qed.

(** C8 (amended). Every entry of the loaded index was built from a file
    whose document is a mapping with a [prompt_id] key, and is filed under
    the string of that key's value; a file whose document has no such key
    leaves the index as it would be without the file. *)
Theorem load_requires_prompt_id_key before f after :
  (forall pid group e,
     _load_prompts (before ++ f :: after) !! pid = Some group -> e ∈ group ->
     exists f' data p,
       f' ∈ before ++ f :: after /\ content f' = Some (VDict data)
       /\ dict_get data "prompt_id" = Some p /\ py_str p = pid
       /\ load_entry f' = Some (pid, e))
  /\ ((forall data, content f = Some (VDict data) -> dict_get data "prompt_id" = None) ->
      _load_prompts (before ++ f :: after) = _load_prompts (before ++ after)).
Proof.
  split.
  - intros pid group e Hg He.
    destruct (load_prompts_group _ _ _ Hg) as (loaded & _ & -> & ->).
    rewrite sort_versions_perm in He.
    unfold entries_for in He. apply list_elem_of_omap in He as (f' & Hf' & Hl).
    destruct (load_entry f') as [[p entry]|] eqn:Hload; [|done].
    destruct (decide (p = pid)) as [->|]; [|done]. injection Hl as ->.
    unfold load_entry in Hload.
    destruct (content f') as [[| | | | | |data]|] eqn:Hc; try done.
    destruct (negb _); [done|].
    destruct (dict_get data "prompt_id") as [p|] eqn:Hp; [|done].
    injection Hload as Hpid Hentry.
    exists f', data, p. repeat split; try done.
    unfold load_entry. rewrite Hc.
    destruct data; [done|]. simpl negb. cbv iota. rewrite Hp.
    by rewrite Hpid, Hentry.
  - intros Hno. unfold _load_prompts. f_equal.
    rewrite !foldl_app. simpl. f_equal.
    assert (load_entry f = None) as Hskip.
    { unfold load_entry.
      destruct (content f) as [[| | | | | |data]|] eqn:Hc; try done.
      destruct (negb _); [done|]. by rewrite (Hno data). }
    unfold index_add. by rewrite Hskip.
Qed.

End LatestVersion.

(** ** Worked registries *)

Definition prompt_file (name : string) (fields : pydict) : yaml_file :=
  {| file_name := name; loaded_at := "2025-10-28T09:30:43+00:00";
     content := Some (VDict fields) |}.

(** The scenario of the specification: two versions of [greeting]. *)
Definition greeting_files : list yaml_file :=
  [prompt_file "greeting_v1.yaml"
     [("prompt_id", VStr "greeting"); ("version", VStr "1.0.0");
      ("template", VStr "Hello {{name}}")];
   prompt_file "greeting_v2.yaml"
     [("prompt_id", VStr "greeting"); ("version", VStr "2.0.0");
      ("template", VStr "Hi {{name}}!")]].

Definition loaded (fields : pydict) (name : string) : pydict :=
  fields ++ [("_source_file", VStr name);
             ("_loaded_at", VStr "2025-10-28T09:30:43+00:00");
             ("example_inputs", VList []);
             ("expected_output_schema", VDict [])].

Definition greeting_v1 : pydict :=
  loaded [("prompt_id", VStr "greeting"); ("version", VStr "1.0.0");
          ("template", VStr "Hello {{name}}")] "greeting_v1.yaml".

Definition greeting_v2 : pydict :=
  loaded [("prompt_id", VStr "greeting"); ("version", VStr "2.0.0");
          ("template", VStr "Hi {{name}}!")] "greeting_v2.yaml".

Example greeting_index :
  _load_prompts greeting_files !! "greeting" = Some [greeting_v2; greeting_v1].
Proof. vm_compute. reflexivity. Qed.

Lemma get_prompt_latest_semver_maximal_witness :
  exists e, get_prompt (_load_prompts greeting_files) "greeting" None = Ok e
            /\ head [greeting_v2; greeting_v1] = Some e
            /\ semver_maximal e [greeting_v2; greeting_v1].
Proof.
  apply (get_prompt_latest_semver_maximal greeting_files "greeting").
  - vm_compute. reflexivity.
  - repeat constructor; eexists; vm_compute; reflexivity.
Defined.

(** Three versions of one prompt, one of which is not a version number. *)
Definition mixed_files : list yaml_file :=
  [prompt_file "a.yaml" [("prompt_id", VStr "p"); ("version", VStr "10.0.0")];
   prompt_file "b.yaml" [("prompt_id", VStr "p"); ("version", VStr "9.0.0")];
   prompt_file "c.yaml" [("prompt_id", VStr "p"); ("version", VStr "1.x")]].

Definition mixed_group : list pydict :=
  [loaded [("prompt_id", VStr "p"); ("version", VStr "9.0.0")] "b.yaml";
   loaded [("prompt_id", VStr "p"); ("version", VStr "10.0.0")] "a.yaml";
   loaded [("prompt_id", VStr "p"); ("version", VStr "1.x")] "c.yaml"].

(** C1, counterexample. With versions 10.0.0, 9.0.0 and 1.x the group is
    sorted lexically, and [get_prompt] returns version 9.0.0 although
    10.0.0 is semantically greater. *)
Lemma latest_not_semver_maximal :
  _load_prompts mixed_files !! "p" = Some mixed_group
  /\ get_prompt (_load_prompts mixed_files) "p" None
     = Ok (loaded [("prompt_id", VStr "p"); ("version", VStr "9.0.0")] "b.yaml")
  /\ ~ semver_maximal
         (loaded [("prompt_id", VStr "p"); ("version", VStr "9.0.0")] "b.yaml")
         mixed_group.
Proof.
  split; [vm_compute; reflexivity|]. split; [vm_compute; reflexivity|].
  intros [_ Hmax].
  specialize (Hmax (loaded [("prompt_id", VStr "p"); ("version", VStr "10.0.0")] "a.yaml")).
  assert (semver_lt (loaded [("prompt_id", VStr "p"); ("version", VStr "9.0.0")] "b.yaml")
            (loaded [("prompt_id", VStr "p"); ("version", VStr "10.0.0")] "a.yaml") = true)
    as Hlt by (vm_compute; reflexivity).
  rewrite Hmax in Hlt; [done|].
  unfold mixed_group. apply elem_of_cons. right. apply elem_of_cons. by left.
Qed.

(** C8, counterexample. A document whose [prompt_id] is the empty string
    is loaded, and filed under the empty identifier. *)
Lemma empty_prompt_id_is_registered :
  let doc := [("prompt_id", VStr ""); ("template", VStr "x")] in
  dict_get doc "prompt_id" = Some (VStr "")
  /\ _load_prompts [prompt_file "nameless.yaml" doc] !! ""
     = Some [loaded doc "nameless.yaml"].
Proof. split; vm_compute; reflexivity. Qed.

(** A document without [prompt_id] next to the two greetings. *)
Definition notes_file : yaml_file :=
  prompt_file "notes.yaml" [("template", VStr "Remember {{item}}")].

Lemma load_requires_prompt_id_key_witness :
  _load_prompts (greeting_files ++ notes_file :: [])
  = _load_prompts (greeting_files ++ []).
Proof.
  apply (proj2 (load_requires_prompt_id_key greeting_files notes_file [])).
  intros data [= <-]. reflexivity.
Defined.

(** A group in which one document omits [version] and one version does
    not parse. *)
Definition unversioned_files : list yaml_file :=
  [prompt_file "a.yaml" [("prompt_id", VStr "p"); ("template", VStr "A")];
   prompt_file "b.yaml" [("prompt_id", VStr "p"); ("version", VStr "0.0")];
   prompt_file "c.yaml" [("prompt_id", VStr "p"); ("version", VStr "dev")]].

(** C9, the failing input. The fallback sort files the document without a
    version under the empty string, last, whereas under the default
    ["0.0.0"] it precedes version ["0.0"]. *)
Lemma fallback_sort_ignores_default_version :
  let a := loaded [("prompt_id", VStr "p"); ("template", VStr "A")] "a.yaml" in
  let b := loaded [("prompt_id", VStr "p"); ("version", VStr "0.0")] "b.yaml" in
  let c := loaded [("prompt_id", VStr "p"); ("version", VStr "dev")] "c.yaml" in
  _load_prompts unversioned_files !! "p" = Some [c; b; a]
  /\ sort_desc str_lt (fun x => py_str (dict_get_or x "version" (VStr "0.0.0"))) [a; b; c]
     = [c; a; b].
Proof. split; vm_compute; reflexivity. Qed.

(** ** Rendering *)






Section RenderFacts.
Context `{VersionScheme}.


End RenderFacts.

Example render_greeting :
  render_prompt (_load_prompts greeting_files) "greeting" [("name", VStr "Ada")] None
  = Ok "Hi Ada!".
Proof. vm_compute. reflexivity. Qed.

Example render_greeting_unbound :
  render_prompt (_load_prompts greeting_files) "greeting" [] None
  = Raise (UndefinedError "name").
Proof. vm_compute. reflexivity. Qed.



(** ** Text: strings, lines, stripping *)

Lemma chars_app s t :
  list_ascii_of_string (s +:+ t) = list_ascii_of_string s ++ list_ascii_of_string t.
Proof. induction s as [|c s IH]; simpl; [done|]. by rewrite IH. Qed.

Lemma string_of_chars_app l m :
  string_of_list_ascii (l ++ m) = string_of_list_ascii l +:+ string_of_list_ascii m.
Proof. induction l as [|c l IH]; simpl; [done|]. by rewrite IH. Qed.

Lemma str_contains_chars c s :
  str_contains c s = false <-> c ∉ list_ascii_of_string s.
Proof.
  unfold str_contains. generalize (list_ascii_of_string s) as l.
  induction l as [|d l IH]; simpl.
  - split; [intros _ Hin; by apply elem_of_nil in Hin|done].
  - rewrite orb_false_iff, IH, not_elem_of_cons.
    destruct (Ascii.eqb_spec c d); split; intros []; try done; split; congruence.
Qed.

(** A text is line-terminated when it is empty or ends with a line feed. *)
Definition line_terminated (l : list ascii) : Prop :=
  l = [] \/ exists l', l = l' ++ [newline].

Lemma file_lines_single line :
  newline ∉ line -> file_lines (line ++ [newline]) = [line ++ [newline]].
Proof.
  induction line as [|c line IH]; intros Hnl; simpl.
  - done.
  - apply not_elem_of_cons in Hnl as [Hc Hnl].
    destruct (Ascii.eqb_spec c newline) as [->|_]; [done|].
    by rewrite IH.
Qed.

Lemma file_lines_cons_nonempty c l : file_lines (c :: l) <> [].
Proof. simpl. destruct (Ascii.eqb c newline); [done|]. by destruct (file_lines l). Qed.

Lemma file_lines_snoc_line l line :
  newline ∉ line ->
  file_lines ((l ++ [newline]) ++ line ++ [newline])
  = file_lines (l ++ [newline]) ++ [line ++ [newline]].
Proof.
  intros Hnl. induction l as [|c l IH]; simpl.
  - by rewrite file_lines_single.
  - destruct (Ascii.eqb c newline).
    + simpl in IH. by rewrite IH.
    + simpl in IH. rewrite IH.
      destruct (file_lines (l ++ [newline])) as [|first rest] eqn:Hl; [|done].
      destruct l; simpl in Hl.
      * done.
      * by apply file_lines_cons_nonempty in Hl.
Qed.

Lemma file_lines_append l line :
  line_terminated l -> newline ∉ line ->
  file_lines (l ++ line ++ [newline]) = file_lines l ++ [line ++ [newline]].
Proof.
  intros [->|[l' ->]] Hnl.
  - simpl. by apply file_lines_single.
  - by apply file_lines_snoc_line.
Qed.

Lemma is_space_newline : is_space newline = true.
Proof. reflexivity. Qed.

Lemma lstrip_app_space l c :
  is_space c = true ->
  lstrip (l ++ [c]) = match lstrip l with [] => [] | m => m ++ [c] end.
Proof.
  intros Hc. induction l as [|d l IH]; simpl.
  - by rewrite Hc.
  - destruct (is_space d); [exact IH|done].
Qed.

Lemma rstrip_app_space l c : is_space c = true -> rstrip (l ++ [c]) = rstrip l.
Proof.
  intros Hc. unfold rstrip. rewrite rev_app_distr. simpl. by rewrite Hc.
Qed.

Lemma strip_line s :
  py_strip (s +:+ String newline "") = py_strip s.
Proof.
  unfold py_strip. rewrite chars_app. simpl. f_equal.
  rewrite (lstrip_app_space _ newline) by done.
  destruct (lstrip (list_ascii_of_string s)) as [|c m] eqn:Hl; [done|].
  by rewrite rstrip_app_space.
Qed.

(** ** Well-formed values *)

Lemma wf_value_dict d :
  wf_value (VDict d) = true
  <-> NoDup (map fst d) /\ Forall (fun kv => wf_value (snd kv) = true) d.
Proof.
  simpl. rewrite andb_true_iff, bool_decide_eq_true, forallb_forall.
  rewrite Forall_forall. split; intros [? Hall]; split; try done;
    intros kv Hkv; apply Hall; by apply list_elem_of_In.
Qed.

Lemma dict_set_keys k v d :
  map fst (dict_set k v d) = if decide (k ∈ map fst d) then map fst d else map fst d ++ [k].
Proof.
  induction d as [|[k' v'] d IH].
  - destruct (decide (k ∈ map fst [])) as [Hin|]; [|done].
    by apply elem_of_nil in Hin.
  - change (map fst ((k', v') :: d)) with (k' :: map fst d).
    cbn [dict_set]. destruct (decide (k' = k)) as [->|Hne].
    + destruct (decide (k ∈ k :: map fst d)) as [|Hnot]; [done|].
      exfalso. apply Hnot, elem_of_cons. auto.
    + change (map fst ((k', v') :: dict_set k v d)) with (k' :: map fst (dict_set k v d)).
      rewrite IH.
      destruct (decide (k ∈ map fst d)) as [Hin|Hnot];
        destruct (decide (k ∈ k' :: map fst d)) as [Hin'|Hnot']; try done.
      * exfalso. apply Hnot', elem_of_cons. auto.
      * apply elem_of_cons in Hin' as [->|?]; done.
Qed.

Lemma wf_dict_set k v d :
  wf_value (VDict d) = true -> wf_value v = true ->
  wf_value (VDict (dict_set k v d)) = true.
Proof.
  rewrite !wf_value_dict. intros [Hnd Hall] Hv. split.
  - rewrite dict_set_keys. destruct (decide (k ∈ map fst d)); [done|].
    apply NoDup_app. split; [done|]. split; [|apply NoDup_singleton].
    intros x Hx ->%list_elem_of_singleton. done.
  - clear Hnd. induction d as [|[k' v'] d IH]; simpl.
    + by repeat constructor.
    + apply Forall_cons in Hall as [Hv' Hall].
      destruct (decide (k' = k)); constructor; auto.
Qed.

Lemma Qred_inject_Z z : Qred (inject_Z z) = inject_Z z.
Proof. apply Qred_identity. simpl. apply Z.gcd_1_r. Qed.

Lemma wf_float_inject_Z z : wf_value (VFloat (inject_Z z)) = true.
Proof.
  simpl. unfold is_decimal, float_digits. rewrite Qred_inject_Z. simpl.
  by rewrite !bool_decide_eq_true_2.
Qed.

Lemma wf_py_float latency x :
  py_float latency = Ok x -> wf_value latency = true -> wf_value (VFloat x) = true.
Proof.
  destruct latency; simpl; try done.
  - intros [= <-] _. apply wf_float_inject_Z.
  - intros [= <-] _. apply wf_float_inject_Z.
  - by intros [= <-].
Qed.

(** ** The usage log *)

Section UsageLogFacts.
Context `{VersionScheme} `{SchemaValidator} `{JsonCodec}.

Lemma get_prompt_with_version (index : prompt_index) pid v :
  (exists prompt, get_prompt index pid (Some v) = Ok prompt)
  \/ (exists msg, get_prompt index pid (Some v) = Raise (KeyError msg)).
Proof.
  unfold get_prompt. destruct (index !! pid); [|right; by eexists].
  destruct (List.find _ _); [left|right]; by eexists.
Qed.



Lemma read_line_dumps v :
  wf_value v = true ->
  read_line (list_ascii_of_string (json_dumps v) ++ [newline]) = Some v.
Proof.
  intros Hwf. unfold read_line.
  rewrite string_of_chars_app, string_of_list_ascii_of_string. simpl.
  rewrite strip_line, json_dumps_stripped.
  rewrite bool_decide_eq_false_2 by apply json_dumps_nonempty.
  by apply json_loads_dumps.
Qed.

Lemma log_records_append file v :
  line_terminated (list_ascii_of_string file) -> wf_value v = true ->
  log_records (file +:+ json_dumps v +:+ String newline "") = log_records file ++ [v].
Proof.
  intros Hterm Hwf. unfold log_records. rewrite !chars_app. simpl.
  rewrite file_lines_append; [|done|].
  - rewrite omap_app. simpl. by rewrite read_line_dumps.
  - apply str_contains_chars, json_dumps_one_line.
Qed.

(** C5. After [log_usage] has written a record to a file that is empty
    or ends with a line feed, reading the file back yields the records it
    held before followed by the record the call returned, equal to it in
    every field. *)
Theorem log_usage_round_trip index log now pid ver input response latency
    metadata record file' :
  log_usage index log now pid ver input response latency metadata = Ok (record, file') ->
  wf_value (VDict input) = true ->
  wf_value (VDict response) = true ->
  wf_value (VDict (default [] metadata)) = true ->
  wf_value latency = true ->
  line_terminated (list_ascii_of_string (default "" log)) ->
  log_records file' = log_records (default "" log) ++ [VDict record].
Proof.
  unfold log_usage. intros Hlog Hin Hresp Hmeta Hlat Hterm.
  destruct (check_response index pid ver response) as [note| |]; try done.
  destruct (py_float latency) as [x| |] eqn:Hx; try done.
  pose proof (wf_py_float _ _ Hx Hlat) as Hfloat.
  injection Hlog as <- <-. apply log_records_append; [done|].
  set (base := [("timestamp", VStr now); ("prompt_id", VStr pid); ("version", VStr ver);
                ("input", VDict input); ("response", VDict response);
                ("latency_ms", VFloat x); ("metadata", VDict (default [] metadata))]).
  assert (wf_value (VDict base) = true) as Hbase.
  { apply wf_value_dict. split.
    - refine (bool_decide_unpack _ _). vm_compute. exact I.
    - repeat constructor; done. }
  destruct note as [note|]; [|done].
  destruct (negb _); [|done].
  apply wf_value_dict. split.
  - refine (bool_decide_unpack _ _). vm_compute. exact I.
  - repeat constructor; try done. simpl snd. by apply wf_dict_set.
Qed.

End UsageLogFacts.

(** ** Metrics *)

(** A usage record as the aggregator can fold it without raising: a JSON
    object whose [prompt_id] and [timestamp] are strings, null or absent. *)
Definition usage_record (rec : value) : bool :=
  match rec with
  | VDict r =>
      match dict_get_or r "prompt_id" VNone with
      | VStr _ | VNone => true
      | _ => false
      end
      && match dict_get_or r "timestamp" VNone with
         | VStr _ | VNone => true
         | _ => false
         end
  | _ => false
  end.



Section MetricsFacts.
Context `{VersionScheme} `{JsonCodec}.













End MetricsFacts.

Lemma dict_get_set_eq k v d : dict_get (dict_set k v d) k = Some v.
Proof.
  induction d as [|[k' v'] d IH]; simpl.
  - by rewrite decide_True.
  - destruct (decide (k' = k)) as [->|Hne]; simpl.
    + by rewrite decide_True.
    + by rewrite decide_False.
Qed.

Lemma dict_get_set_ne k k' v d : k <> k' -> dict_get (dict_set k v d) k' = dict_get d k'.
Proof.
  intros Hne. induction d as [|[k0 v0] d IH]; simpl.
  - by rewrite decide_False.
  - destruct (decide (k0 = k)) as [->|Hne0]; simpl.
    + by rewrite !decide_False.
    + destruct (decide (k0 = k')); [done|apply IH].
Qed.

Section MetricsSummaries.
Context `{VersionScheme} `{JsonCodec}.

Lemma fold_line_read agg line :
  fold_line agg line = match read_line line with
                       | Some rec => fold_record agg rec
                       | None => Ok agg
                       end.
Proof. unfold fold_line, read_line. by case_bool_decide. Qed.






End MetricsSummaries.

(** ** The reference JSON codec reads back what it writes *)

(** *** Numerals *)

#[local] Arguments is_digit : simpl never.
#[local] Arguments digit_value : simpl never.
#[local] Arguments digit_char : simpl never.

Lemma nat_of_digit_char d :
  (d < 10)%N -> nat_of_ascii (digit_char d) = (48 + N.to_nat d)%nat.
Proof.
  intros Hd. unfold nat_of_ascii, digit_char. rewrite N_ascii_embedding; lia.
Qed.

Lemma digit_value_char d : (d < 10)%N -> digit_value (digit_char d) = d.
Proof.
  intros Hd. unfold digit_value. rewrite nat_of_digit_char by done. lia.
Qed.

Lemma is_digit_char d : (d < 10)%N -> is_digit (digit_char d) = true.
Proof.
  intros Hd. unfold is_digit. rewrite nat_of_digit_char by done.
  apply andb_true_iff. split; apply Nat.leb_le; lia.
Qed.

Lemma digits_value_snoc ds c :
  digits_value (ds ++ [c]) = (10 * digits_value ds + digit_value c)%N.
Proof. unfold digits_value. by rewrite fold_left_app. Qed.

Lemma digits_upto_S fuel n :
  digits_upto (S fuel) n
  = if (n <? 10)%N then [digit_char n]
    else digits_upto fuel (n / 10)%N ++ [digit_char (n mod 10)%N].
Proof. reflexivity. Qed.

Lemma digits_upto_spec fuel n :
  (n < 2 ^ N.of_nat fuel)%N ->
  digits_value (digits_upto (S fuel) n) = n
  /\ Forall (fun c => is_digit c = true) (digits_upto (S fuel) n)
  /\ digits_upto (S fuel) n <> []
  /\ (head (digits_upto (S fuel) n) = Some "0"%char -> n = 0%N).
Proof.
  revert n. induction fuel as [|fuel IH]; intros n Hn.
  - assert (n = 0%N) as -> by (simpl in Hn; lia). simpl. repeat split; try done.
    by repeat constructor.
  - rewrite (digits_upto_S (S fuel)). destruct (N.ltb_spec n 10) as [Hlt|Hge].
    + repeat split; try done.
      * unfold digits_value. simpl. by rewrite digit_value_char.
      * repeat constructor. by apply is_digit_char.
      * simpl. intros [= Hc]. apply (f_equal digit_value) in Hc.
        rewrite digit_value_char in Hc by done. by rewrite Hc.
    + assert (n / 10 < 2 ^ N.of_nat fuel)%N as Hdiv.
      { rewrite Nat2N.inj_succ, N.pow_succ_r' in Hn.
        apply N.Div0.div_lt_upper_bound. lia. }
      destruct (IH _ Hdiv) as (Hval & Hdig & Hne & Hhead).
      assert (n mod 10 < 10)%N as Hmod by (apply N.mod_lt; lia).
      repeat split.
      * rewrite digits_value_snoc, Hval, digit_value_char by done.
        symmetry. apply N.div_mod. lia.
      * apply Forall_app. split; [done|]. repeat constructor. by apply is_digit_char.
      * by destruct (digits_upto (S fuel) (n / 10)).
      * destruct (digits_upto (S fuel) (n / 10)) as [|c ds] eqn:Hds; [done|].
        simpl. intros Hc. specialize (Hhead Hc).
        assert (n < 10)%N; [|lia].
        pose proof (N.div_mod n 10). lia.
Qed.

Lemma size_nat_bound n : (n < 2 ^ N.of_nat (N.size_nat n))%N.
Proof.
  destruct n as [|p]; [simpl; lia|]. simpl N.size_nat.
  induction p as [p IH|p IH|]; simpl Pos.size_nat;
    rewrite ?Nat2N.inj_succ, ?N.pow_succ_r'; simpl; lia.
Qed.

Lemma N_digits_spec n :
  digits_value (N_digits n) = n
  /\ Forall (fun c => is_digit c = true) (N_digits n)
  /\ N_digits n <> []
  /\ (head (N_digits n) = Some "0"%char -> n = 0%N).
Proof. apply digits_upto_spec, size_nat_bound. Qed.

Lemma digits_acc acc ds :
  fold_left (fun a c => (10 * a + digit_value c)%N) ds acc
  = (acc * 10 ^ N.of_nat (length ds) + digits_value ds)%N.
Proof.
  unfold digits_value. revert acc. induction ds as [|c ds IH]; intros acc.
  - simpl. lia.
  - cbn [fold_left length]. rewrite IH, (IH (10 * 0 + digit_value c)%N).
    rewrite Nat2N.inj_succ, N.pow_succ_r'. lia.
Qed.

Lemma digits_value_app xs ys :
  digits_value (xs ++ ys)
  = (digits_value xs * 10 ^ N.of_nat (length ys) + digits_value ys)%N.
Proof. unfold digits_value at 1. rewrite fold_left_app. apply digits_acc. Qed.

Lemma digits_value_zeros k : digits_value (replicate k "0"%char) = 0%N.
Proof.
  induction k as [|k IH]; [done|].
  change (replicate (S k) "0"%char) with (["0"%char] ++ replicate k "0"%char).
  rewrite digits_value_app, IH. reflexivity.
Qed.

Lemma digits_upto_length fuel n k :
  (n < 10 ^ N.of_nat k)%N -> (1 <= k)%nat -> (length (digits_upto fuel n) <= k)%nat.
Proof.
  revert n k. induction fuel as [|fuel IH]; intros n k Hn Hk; [simpl; lia|].
  rewrite digits_upto_S. destruct (N.ltb_spec n 10) as [Hlt|Hge]; [simpl; lia|].
  rewrite length_app. simpl.
  destruct k as [|[|k]]; [lia| |].
  - simpl in Hn. lia.
  - assert (length (digits_upto fuel (n / 10)) <= S k)%nat; [|lia].
    apply IH; [|lia].
    rewrite (Nat2N.inj_succ (S k)), N.pow_succ_r' in Hn.
    apply N.Div0.div_lt_upper_bound. lia.
Qed.

Lemma span_digits_app ds rest :
  Forall (fun c => is_digit c = true) ds ->
  match rest with c :: _ => is_digit c = false | [] => True end ->
  span_digits (ds ++ rest) = (ds, rest).
Proof.
  intros Hds Hrest. induction Hds as [|c ds Hc _ IH]; simpl.
  - destruct rest as [|c rest]; [done|]. simpl. by rewrite Hrest.
  - by rewrite Hc, IH.
Qed.

Definition number_end (rest : list ascii) : Prop :=
  match rest with
  | [] => True
  | c :: _ =>
      is_digit c = false /\ Ascii.eqb c "." = false
      /\ Ascii.eqb c "e" = false /\ Ascii.eqb c "E" = false
  end.

Lemma number_end_not_digit rest :
  number_end rest -> match rest with c :: _ => is_digit c = false | [] => True end.
Proof. destruct rest; [done|]. by intros [? _]. Qed.

Lemma is_digit_not_sign c :
  is_digit c = true -> Ascii.eqb c "-" = false /\ Ascii.eqb c "." = false.
Proof.
  intros Hc. split.
  - destruct (Ascii.eqb_spec c "-") as [->|]; done.
  - destruct (Ascii.eqb_spec c ".") as [->|]; done.
Qed.

Lemma take_frac_end rest : number_end rest -> take_frac rest = ([], rest).
Proof. destruct rest as [|c rest]; [done|]. intros (_ & Hc & _). simpl. by rewrite Hc. Qed.

Lemma take_exp_end rest : number_end rest -> take_exp rest = (None, rest).
Proof.
  destruct rest as [|c rest]; [done|]. intros (_ & _ & He & HE). simpl.
  by rewrite He, HE.
Qed.

Lemma take_sign_digits n rest :
  take_sign (N_digits n ++ rest) = (false, N_digits n ++ rest).
Proof.
  destruct (N_digits_spec n) as (_ & Hdig & Hne & _).
  destruct (N_digits n) as [|c ds]; [done|].
  apply Forall_cons in Hdig as [Hc _]. simpl.
  by destruct (is_digit_not_sign c Hc) as [-> _].
Qed.

Lemma take_int_digits n rest :
  match rest with c :: _ => is_digit c = false | [] => True end ->
  take_int (N_digits n ++ rest) = (N_digits n, rest).
Proof.
  intros Hrest. destruct (N_digits_spec n) as (_ & Hdig & Hne & Hzero).
  destruct (N_digits n) as [|c ds] eqn:Hds; [done|].
  unfold take_int. cbn [app]. destruct (Ascii.eqb_spec c "0") as [->|Hc].
  - assert (n = 0%N) as -> by (by apply Hzero).
    vm_compute in Hds. by injection Hds as <-.
  - change (c :: ds ++ rest) with ((c :: ds) ++ rest).
    by apply span_digits_app.
Qed.

(** An integer is read back. *)
Lemma parse_number_int z rest :
  number_end rest -> parse_number (int_chars z ++ rest) = Some (VInt z, rest).
Proof.
  intros Hend. unfold parse_number, int_chars.
  destruct (N_digits_spec (Z.abs_N z)) as (Hval & _ & Hne & _).
  destruct (Z.ltb_spec z 0) as [Hneg|Hpos].
  - cbn [app take_sign]. rewrite Ascii.eqb_refl.
    rewrite take_int_digits by (by apply number_end_not_digit).
    destruct (N_digits (Z.abs_N z)) as [|c ds] eqn:Hds; [done|].
    rewrite take_frac_end, take_exp_end, Hval by done.
    do 3 f_equal. rewrite N2Z.inj_abs_N. lia.
  - cbn [app]. rewrite take_sign_digits.
    rewrite take_int_digits by (by apply number_end_not_digit).
    destruct (N_digits (Z.abs_N z)) as [|c ds] eqn:Hds; [done|].
    rewrite take_frac_end, take_exp_end, Hval by done.
    do 3 f_equal. rewrite N2Z.inj_abs_N. lia.
Qed.

(** *** Floats *)

Lemma decimal_places_spec fuel k0 den k :
  decimal_places fuel k0 den = Some k -> (10 ^ N.of_nat k mod N.pos den = 0)%N.
Proof.
  revert k0. induction fuel as [|fuel IH]; intros k0; simpl.
  - destruct (N.eqb_spec (10 ^ N.of_nat k0 mod N.pos den) 0); [|done].
    by intros [= <-].
  - destruct (N.eqb_spec (10 ^ N.of_nat k0 mod N.pos den) 0); [by intros [= <-]|].
    apply IH.
Qed.

Lemma float_digits_value q m k j :
  Qred q = q -> float_digits q = Some (m, k) ->
  Qred (Qmake (m * 10 ^ Z.of_nat j) (Z.to_pos (10 ^ Z.of_nat (k + j)))) = q.
Proof.
  intros Hred. unfold float_digits. rewrite Hred.
  destruct (decimal_places _ 0 (Qden q)) as [k'|] eqn:Hk; [|done].
  intros [= <- <-]. apply decimal_places_spec in Hk.
  rewrite <- Hred at 3. apply Qred_complete. unfold Qeq. simpl.
  assert (0 < 10 ^ Z.of_nat (k' + j))%Z as Hpos by (apply Z.pow_pos_nonneg; lia).
  rewrite Z2Pos.id by done.
  assert (10 ^ Z.of_nat k' mod Z.pos (Qden q) = 0)%Z as Hmod.
  { apply (f_equal Z.of_N) in Hk. rewrite N2Z.inj_mod, N2Z.inj_pow in Hk.
    simpl in Hk. by rewrite nat_N_Z in Hk. }
  assert (10 ^ Z.of_nat k' = Z.pos (Qden q) * (10 ^ Z.of_nat k' / Z.pos (Qden q)))%Z
    as Hex by (by apply Z.div_exact).
  rewrite Nat2Z.inj_add, Z.pow_add_r by lia.
  set (c := (10 ^ Z.of_nat k' / Z.pos (Qden q))%Z) in *.
  rewrite Hex. ring.
Qed.

Lemma pad_zeros_spec k ds :
  (length ds <= k)%nat ->
  length (pad_zeros k ds) = k /\ digits_value (pad_zeros k ds) = digits_value ds.
Proof.
  intros Hlen. unfold pad_zeros. split.
  - rewrite length_app, length_replicate. lia.
  - rewrite digits_value_app, digits_value_zeros. lia.
Qed.

Lemma Forall_digit_zeros k : Forall (fun c => is_digit c = true) (replicate k "0"%char).
Proof. induction k; simpl; by constructor. Qed.

(** The fractional digits written for [a / 10^k]. *)
Definition frac_digits (a : N) (k : nat) : list ascii :=
  match k with
  | O => ["0"%char]
  | S _ => pad_zeros k (N_digits (a mod 10 ^ N.of_nat k)%N)
  end.

Lemma frac_digits_spec a k :
  Forall (fun c => is_digit c = true) (frac_digits a k)
  /\ frac_digits a k <> []
  /\ exists j,
       length (frac_digits a k) = (k + j)%nat
       /\ ((a / 10 ^ N.of_nat k) * 10 ^ N.of_nat (length (frac_digits a k))
           + digits_value (frac_digits a k) = a * 10 ^ N.of_nat j)%N.
Proof.
  destruct k as [|k].
  - split; [by repeat constructor|]. split; [done|]. exists 1%nat.
    split; [done|]. cbn [frac_digits length].
    change (digits_value ["0"%char]) with 0%N.
    change (10 ^ N.of_nat 0)%N with 1%N. change (10 ^ N.of_nat 1)%N with 10%N.
    rewrite N.div_1_r. lia.
  - change (frac_digits a (S k))
      with (pad_zeros (S k) (N_digits (a mod 10 ^ N.of_nat (S k))%N)).
    generalize (S k) (Nat.lt_0_succ k). clear k. intros K HK.
    set (r := (a mod 10 ^ N.of_nat K)%N).
    assert (r < 10 ^ N.of_nat K)%N as Hr.
    { apply N.mod_lt. apply N.pow_nonzero. lia. }
    destruct (N_digits_spec r) as (Hval & Hdig & Hne & _).
    assert (length (N_digits r) <= K)%nat as Hlen.
    { apply digits_upto_length; [done|lia]. }
    destruct (pad_zeros_spec K (N_digits r) Hlen) as [Hplen Hpval].
    split; [|split].
    + apply Forall_app. split; [apply Forall_digit_zeros|done].
    + intros Hnil. rewrite Hnil in Hplen. simpl in Hplen. lia.
    + exists 0%nat. rewrite Hplen, Hpval, Hval. split; [lia|].
      change (10 ^ N.of_nat 0)%N with 1%N. rewrite N.mul_1_r. unfold r.
      rewrite (N.div_mod a (10 ^ N.of_nat K)) at 3 by (apply N.pow_nonzero; lia). lia.
Qed.

Lemma float_chars_digits q m k :
  float_digits q = Some (m, k) ->
  float_chars q
  = (if (m <? 0)%Z then ["-"%char] else [])
    ++ N_digits (Z.abs_N m / 10 ^ N.of_nat k)%N ++ ["."%char] ++ frac_digits (Z.abs_N m) k.
Proof. intros Hd. unfold float_chars. rewrite Hd. by destruct k. Qed.

Lemma take_frac_digits ds rest :
  Forall (fun c => is_digit c = true) ds -> ds <> [] ->
  match rest with c :: _ => is_digit c = false | [] => True end ->
  take_frac ("."%char :: ds ++ rest) = (ds, rest).
Proof.
  intros Hds Hne Hrest. unfold take_frac. simpl Ascii.eqb. cbv iota.
  rewrite span_digits_app by done. by destruct ds.
Qed.

(** A float is read back. *)
Lemma parse_number_float q rest :
  wf_value (VFloat q) = true -> number_end rest ->
  parse_number (float_chars q ++ rest) = Some (VFloat q, rest).
Proof.
  intros Hwf Hend. simpl in Hwf.
  apply andb_true_iff in Hwf as [Hwf Hdec].
  apply andb_true_iff in Hwf as [Hnum Hden].
  apply bool_decide_eq_true in Hnum, Hden.
  assert (Qred q = q) as Hred.
  { destruct q as [n d], (Qred (n # d)) as [n' d']. simpl in *. congruence. }
  unfold is_decimal in Hdec.
  destruct (float_digits q) as [[m k]|] eqn:Hfd; [|done].
  rewrite (float_chars_digits _ _ _ Hfd).
  set (a := Z.abs_N m).
  destruct (frac_digits_spec a k) as (Hfdig & Hfne & j & Hflen & Hfval).
  destruct (N_digits_spec (a / 10 ^ N.of_nat k)) as (Hval & _ & Hne & _).
  assert (forall negative l,
             take_sign l = (negative, N_digits (a / 10 ^ N.of_nat k) ++ ["."%char]
                                      ++ frac_digits a k ++ rest) ->
             (if negative then (- Z.of_N a)%Z else Z.of_N a) = m ->
             parse_number l = Some (VFloat q, rest)) as Hparse.
  { intros negative l Hsign Hm. unfold parse_number. rewrite Hsign.
    rewrite take_int_digits by done.
    destruct (N_digits (a / 10 ^ N.of_nat k)) as [|c ds] eqn:Hds; [done|].
    cbn [app]. rewrite take_frac_digits; [|done|done|by apply number_end_not_digit].
    rewrite take_exp_end by done.
    destruct (frac_digits a k) as [|f fs] eqn:Hfs; [done|].
    do 3 f_equal. change (c :: ds ++ f :: fs) with ((c :: ds) ++ f :: fs).
    rewrite digits_value_app, Hval, Hfval, Hflen.
    unfold decimal_Q. simpl default.
    destruct (Z.leb_spec 0 (0 - Z.of_nat (k + j))) as [Hle|_].
    { assert (k + j = 0)%nat as Hz by lia. rewrite Hz in Hflen. done. }
    replace (- (0 - Z.of_nat (k + j)))%Z with (Z.of_nat (k + j)) by lia.
    rewrite <- (float_digits_value q m k j Hred Hfd). do 2 f_equal.
    rewrite <- Hm. destruct negative; rewrite N2Z.inj_mul, N2Z.inj_pow, nat_N_Z;
      change (Z.of_N 10) with 10%Z; ring. }
  rewrite <- !app_assoc.
  destruct (Z.ltb_spec m 0) as [Hneg|Hpos].
  - apply (Hparse true); [done|]. unfold a. rewrite N2Z.inj_abs_N. lia.
  - apply (Hparse false); [|unfold a; rewrite N2Z.inj_abs_N; lia].
    cbn [app]. rewrite <- (take_sign_digits (a / 10 ^ N.of_nat k)). done.
Qed.

(** *** Strings *)

Lemma parse_escape c tail :
  parse_string_body (json_escape c ++ tail) = prepend [c] (parse_string_body tail).
Proof.
  destruct c as [[] [] [] [] [] [] [] []]; reflexivity.
Qed.

Lemma parse_string_chars cs rest :
  parse_string_body (flat_map json_escape cs ++ dquote :: rest) = Some (cs, rest).
Proof.
  induction cs as [|c cs IH]; [done|].
  cbn [flat_map]. rewrite <- app_assoc, parse_escape, IH. done.
Qed.

Lemma parse_print_string s rest :
  exists tail, print_string s ++ rest = dquote :: tail
               /\ parse_string_body tail = Some (list_ascii_of_string s, rest).
Proof.
  exists (flat_map json_escape (list_ascii_of_string s) ++ dquote :: rest). split.
  - unfold print_string. cbn [app]. by rewrite <- app_assoc.
  - apply parse_string_chars.
Qed.

(** *** Values *)

Lemma parse_value_S fuel c r :
  parse_value (S fuel) (c :: r)
  = if Ascii.eqb c dquote then
      match parse_string_body r with
      | Some (s, r') => Some (VStr (string_of_list_ascii s), r')
      | None => None
      end
    else if Ascii.eqb c "{" then
      match skip_ws r with
      | c2 :: r2 =>
          if Ascii.eqb c2 "}" then Some (VDict [], r2)
          else match parse_members fuel (c2 :: r2) with
               | Some (pairs, r') => Some (VDict (dict_of_pairs pairs), r')
               | None => None
               end
      | [] => None
      end
    else if Ascii.eqb c "[" then
      match skip_ws r with
      | c2 :: r2 =>
          if Ascii.eqb c2 "]" then Some (VList [], r2)
          else match parse_elements fuel (c2 :: r2) with
               | Some (vs, r') => Some (VList vs, r')
               | None => None
               end
      | [] => None
      end
    else
      match c :: r with
      | "n"%char :: "u"%char :: "l"%char :: "l"%char :: r' => Some (VNone, r')
      | "t"%char :: "r"%char :: "u"%char :: "e"%char :: r' => Some (VBool true, r')
      | "f"%char :: "a"%char :: "l"%char :: "s"%char :: "e"%char :: r' =>
          Some (VBool false, r')
      | _ => parse_number (c :: r)
      end.
Proof. reflexivity. Qed.

Lemma parse_elements_S fuel l :
  parse_elements (S fuel) l
  = match parse_value fuel l with
    | Some (v, r) =>
        match skip_ws r with
        | c :: r' =>
            if Ascii.eqb c "," then
              match parse_elements fuel (skip_ws r') with
              | Some (vs, r'') => Some (v :: vs, r'')
              | None => None
              end
            else if Ascii.eqb c "]" then Some ([v], r')
            else None
        | [] => None
        end
    | None => None
    end.
Proof. reflexivity. Qed.

Lemma parse_members_S fuel q r :
  parse_members (S fuel) (q :: r)
  = if Ascii.eqb q dquote then
      match parse_string_body r with
      | Some (k, r1) =>
          match skip_ws r1 with
          | c :: r2 =>
              if Ascii.eqb c ":" then
                match parse_value fuel (skip_ws r2) with
                | Some (v, r3) =>
                    match skip_ws r3 with
                    | c' :: r4 =>
                        if Ascii.eqb c' "," then
                          match parse_members fuel (skip_ws r4) with
                          | Some (ms, r5) => Some ((string_of_list_ascii k, v) :: ms, r5)
                          | None => None
                          end
                        else if Ascii.eqb c' "}"
                             then Some ([(string_of_list_ascii k, v)], r4)
                             else None
                    | [] => None
                    end
                | None => None
                end
              else None
          | [] => None
          end
      | None => None
      end
    else None.
Proof. reflexivity. Qed.

(** A digit or a minus sign starts a number and nothing else. *)
Lemma parse_value_number fuel c r :
  is_digit c || Ascii.eqb c "-" = true ->
  parse_value (S fuel) (c :: r) = parse_number (c :: r).
Proof.
  intros Hc. rewrite parse_value_S.
  destruct c as [[] [] [] [] [] [] [] []]; try discriminate Hc; reflexivity.
Qed.

(** The first character of a printed value. *)
Definition value_start (l : list ascii) : Prop :=
  match l with
  | c :: _ =>
      is_json_space c = false /\ is_space c = false
      /\ Ascii.eqb c "]" = false /\ Ascii.eqb c "}" = false
  | [] => False
  end.

Lemma digit_start c : is_digit c = true -> value_start [c].
Proof.
  intros Hc. destruct c as [[] [] [] [] [] [] [] []]; try discriminate Hc; done.
Qed.

Lemma value_start_app l m : value_start l -> value_start (l ++ m).
Proof. by destruct l. Qed.

Lemma N_digits_start n : value_start (N_digits n).
Proof.
  destruct (N_digits_spec n) as (_ & Hdig & Hne & _).
  destruct (N_digits n) as [|c ds]; [done|].
  apply Forall_cons in Hdig as [Hc _]. by apply (digit_start c).
Qed.

Lemma int_chars_start z :
  exists c t, int_chars z = c :: t /\ is_digit c || Ascii.eqb c "-" = true
              /\ value_start (int_chars z).
Proof.
  unfold int_chars. destruct (z <? 0)%Z; cbn [app].
  - eexists _, _. split; [reflexivity|]. done.
  - pose proof (N_digits_start (Z.abs_N z)) as Hs.
    destruct (N_digits_spec (Z.abs_N z)) as (_ & Hdig & _ & _).
    destruct (N_digits (Z.abs_N z)) as [|c ds]; [done|].
    apply Forall_cons in Hdig as [Hc _].
    eexists _, _. split; [reflexivity|]. by rewrite Hc.
Qed.

Lemma float_chars_start q :
  is_decimal q = true ->
  exists c t, float_chars q = c :: t /\ is_digit c || Ascii.eqb c "-" = true
              /\ value_start (float_chars q).
Proof.
  unfold is_decimal. destruct (float_digits q) as [[m k]|] eqn:Hfd; [|done]. intros _.
  rewrite (float_chars_digits _ _ _ Hfd). destruct (m <? 0)%Z; cbn [app].
  - eexists _, _. split; [reflexivity|]. done.
  - pose proof (N_digits_start (Z.abs_N m / 10 ^ N.of_nat k)) as Hs.
    destruct (N_digits_spec (Z.abs_N m / 10 ^ N.of_nat k)) as (_ & Hdig & _ & _).
    destruct (N_digits (Z.abs_N m / 10 ^ N.of_nat k)) as [|c ds]; [done|].
    apply Forall_cons in Hdig as [Hc _].
    eexists _, _. split; [reflexivity|]. by rewrite Hc.
Qed.

Lemma print_value_start v : value_start (print_value v).
Proof.
  destruct v as [|[]|z|q| | |]; try done.
  - by destruct (int_chars_start z) as (c & t & _ & _ & ?).
  - simpl. destruct (is_decimal q) eqn:Hd.
    + by destruct (float_chars_start q Hd) as (c & t & _ & _ & ?).
    + unfold float_chars. unfold is_decimal in Hd. by destruct (float_digits q).
Qed.

Lemma skip_ws_start l : value_start l -> skip_ws l = l.
Proof. destruct l as [|c l]; [done|]. intros (Hc & _). simpl. by rewrite Hc. Qed.

Definition reads_back (v : value) : Prop :=
  wf_value v = true ->
  forall fuel rest,
    (length (print_value v) <= fuel)%nat -> number_end rest ->
    parse_value fuel (print_value v ++ rest) = Some (v, rest).

Definition print_member (kv : string * value) : list ascii :=
  print_string (fst kv) ++ colon ++ print_value (snd kv).

Lemma join_cons2 sep p q ps : join sep (p :: q :: ps) = p ++ sep ++ join sep (q :: ps).
Proof. reflexivity. Qed.

Lemma elements_start x l : value_start (join comma (map print_value (x :: l))).
Proof.
  destruct l as [|y l]; cbn [map]; [apply print_value_start|].
  rewrite join_cons2. apply value_start_app, print_value_start.
Qed.

Lemma skip_ws_cons c l : is_json_space c = false -> skip_ws (c :: l) = c :: l.
Proof. intros Hc. simpl. by rewrite Hc. Qed.

Lemma skip_ws_space l : skip_ws (" "%char :: l) = skip_ws l.
Proof. reflexivity. Qed.

Lemma parse_elements_print l :
  l <> [] -> Forall reads_back l -> Forall (fun x => wf_value x = true) l ->
  forall fuel rest,
    (length (join comma (map print_value l)) + 1 <= fuel)%nat ->
    parse_elements fuel (join comma (map print_value l) ++ "]"%char :: rest)
    = Some (l, rest).
Proof.
  induction l as [|x l IH]; [done|]. intros _ Hrb Hwf fuel rest Hfuel.
  apply Forall_cons in Hrb as [Hx Hrb]. apply Forall_cons in Hwf as [Hwx Hwf].
  destruct fuel as [|fuel]; [lia|]. rewrite parse_elements_S.
  destruct l as [|y l].
  - cbn [map join] in *. rewrite (Hx Hwx); [|lia|done].
    rewrite skip_ws_cons by reflexivity. reflexivity.
  - cbn [map] in *. rewrite join_cons2 in *.
    rewrite length_app, length_app in Hfuel. cbn [comma length] in Hfuel.
    rewrite <- !app_assoc. rewrite (Hx Hwx); [|lia|done].
    cbn [comma app]. rewrite skip_ws_cons by reflexivity. cbv beta iota.
    rewrite Ascii.eqb_refl, skip_ws_space.
    rewrite skip_ws_start by (apply value_start_app, (elements_start y l)).
    rewrite IH; [done|done|done|done|]. cbn [map]. lia.
Qed.

Lemma members_start kv d : exists tail, join comma (map print_member (kv :: d)) = dquote :: tail.
Proof.
  destruct d as [|kv' d]; cbn [map]; [|rewrite join_cons2];
    unfold print_member at 1, print_string; cbn [app]; eauto.
Qed.

Lemma parse_members_print d :
  d <> [] -> Forall (fun kv => reads_back (snd kv)) d ->
  Forall (fun kv => wf_value (snd kv) = true) d ->
  forall fuel rest,
    (length (join comma (map print_member d)) + 1 <= fuel)%nat ->
    parse_members fuel (join comma (map print_member d) ++ "}"%char :: rest)
    = Some (d, rest).
Proof.
  induction d as [|[k v] d IH]; [done|]. intros _ Hrb Hwf fuel rest Hfuel.
  apply Forall_cons in Hrb as [Hv Hrb]. apply Forall_cons in Hwf as [Hwv Hwf].
  simpl snd in Hv, Hwv.
  destruct fuel as [|fuel]; [lia|].
  assert (forall tail,
             (length (print_member (k, v)) <= fuel)%nat ->
             number_end tail ->
             exists body,
               print_member (k, v) ++ tail = dquote :: body
               /\ parse_string_body body
                  = Some (list_ascii_of_string k, colon ++ print_value v ++ tail)
               /\ parse_value fuel (print_value v ++ tail) = Some (v, tail)) as Hmember.
  { intros tail Hlen Hend. unfold print_member. cbn [fst snd].
    destruct (parse_print_string k (colon ++ print_value v ++ tail)) as (body & Hb & Hparse).
    exists body. rewrite <- !app_assoc. split; [done|]. split; [done|].
    apply Hv; [done| |done].
    unfold print_member in Hlen. cbn [fst snd] in Hlen. rewrite !length_app in Hlen. lia. }
  destruct d as [|kv' d].
  - cbn [map join] in *.
    destruct (Hmember ("}"%char :: rest)) as (body & -> & Hbody & Hval); [lia|done|].
    rewrite parse_members_S, Ascii.eqb_refl, Hbody.
    cbn [colon app]. rewrite skip_ws_cons by reflexivity. cbv beta iota.
    rewrite Ascii.eqb_refl, skip_ws_space.
    rewrite skip_ws_start by (apply value_start_app, print_value_start).
    rewrite Hval. rewrite skip_ws_cons by reflexivity. cbv beta iota.
    change (Ascii.eqb "}" ",") with false. cbv iota. rewrite Ascii.eqb_refl.
    by rewrite string_of_list_ascii_of_string.
  - cbn [map] in *. rewrite join_cons2 in *.
    rewrite length_app, length_app in Hfuel. cbn [comma length] in Hfuel.
    rewrite <- !app_assoc.
    destruct (Hmember (comma ++ join comma (print_member kv' :: map print_member d)
                       ++ "}"%char :: rest)) as (body & -> & Hbody & Hval); [lia|done|].
    rewrite parse_members_S, Ascii.eqb_refl, Hbody.
    cbn [colon app]. rewrite skip_ws_cons by reflexivity. cbv beta iota.
    rewrite Ascii.eqb_refl, skip_ws_space.
    rewrite skip_ws_start by (apply value_start_app, print_value_start).
    rewrite Hval.
    cbn [comma app]. rewrite skip_ws_cons by reflexivity. cbv beta iota.
    rewrite Ascii.eqb_refl, skip_ws_space.
    destruct (members_start kv' d) as (tail & Htail). cbn [map] in Htail.
    rewrite Htail. cbn [app]. rewrite (skip_ws_cons dquote) by reflexivity.
    rewrite app_comm_cons, <- Htail.
    rewrite IH; [|done|done|done|cbn [map]; lia].
    by rewrite string_of_list_ascii_of_string.
Qed.

Lemma dict_set_fresh k v d : k ∉ map fst d -> dict_set k v d = d ++ [(k, v)].
Proof.
  induction d as [|[k' v'] d IH]; [done|]. simpl.
  intros [Hne Hnot]%not_elem_of_cons.
  rewrite decide_False by done. by rewrite IH.
Qed.

Lemma dict_of_pairs_nodup d : NoDup (map fst d) -> dict_of_pairs d = d.
Proof.
  unfold dict_of_pairs.
  assert (forall acc, NoDup (map fst (acc ++ d)) ->
                      fold_left (fun d0 kv => dict_set (fst kv) (snd kv) d0) d acc
                      = acc ++ d) as Hgen.
  { induction d as [|[k v] d IH]; intros acc Hnd; simpl.
    - by rewrite app_nil_r.
    - rewrite dict_set_fresh.
      + rewrite IH; rewrite <- app_assoc; done.
      + rewrite map_app in Hnd. simpl in Hnd.
        apply NoDup_app in Hnd as (_ & Hdisj & _).
        intros Hin. apply (Hdisj k Hin). apply elem_of_cons. by left. }
  intros Hnd. by apply (Hgen []).
Qed.

Lemma wf_value_list l :
  wf_value (VList l) = true <-> Forall (fun x => wf_value x = true) l.
Proof.
  change (wf_value (VList l)) with (forallb wf_value l).
  rewrite forallb_forall, Forall_forall. split; intros Hall x Hx; apply Hall;
    by apply list_elem_of_In.
Qed.

Lemma print_value_reads_back v : reads_back v.
Proof.
  induction v as [|b|z|q|s|l IH|d IH] using value_ind; intros Hwf fuel rest Hfuel Hend.
  - destruct fuel as [|fuel]; [simpl in Hfuel; lia|]. reflexivity.
  - destruct fuel as [|fuel]; [destruct b; simpl in Hfuel; lia|]. by destruct b.
  - destruct (int_chars_start z) as (c & t & Hc & Hstart & _).
    cbn [print_value] in *. destruct fuel as [|fuel]; [rewrite Hc in Hfuel; simpl in Hfuel; lia|].
    rewrite <- (parse_number_int z rest Hend). rewrite Hc. cbn [app].
    by apply parse_value_number.
  - assert (is_decimal q = true) as Hdec.
    { simpl in Hwf. by apply andb_true_iff in Hwf as [_ ?]. }
    destruct (float_chars_start q Hdec) as (c & t & Hc & Hstart & _).
    cbn [print_value] in *. destruct fuel as [|fuel]; [rewrite Hc in Hfuel; simpl in Hfuel; lia|].
    rewrite <- (parse_number_float q rest Hwf Hend). rewrite Hc. cbn [app].
    by apply parse_value_number.
  - cbn [print_value] in *.
    destruct fuel as [|fuel]; [unfold print_string in Hfuel; simpl in Hfuel; lia|].
    destruct (parse_print_string s rest) as (tail & -> & Htail).
    rewrite parse_value_S. simpl Ascii.eqb. cbv iota. rewrite Htail.
    by rewrite string_of_list_ascii_of_string.
  - cbn [print_value] in *. destruct fuel as [|fuel]; [simpl in Hfuel; lia|].
    cbn [app]. rewrite parse_value_S.
    change (Ascii.eqb "[" dquote) with false. change (Ascii.eqb "[" "{") with false.
    rewrite Ascii.eqb_refl. cbv iota.
    destruct l as [|x l]; [reflexivity|].
    rewrite <- app_assoc. rewrite skip_ws_start by apply value_start_app, elements_start.
    pose proof (elements_start x l) as Hs.
    destruct (join comma (map print_value (x :: l))) as [|c2 r2] eqn:Hj; [done|].
    destruct Hs as (_ & _ & Hc & _). cbn [app]. rewrite Hc.
    rewrite app_comm_cons, <- Hj.
    rewrite parse_elements_print; [done|done|done| |].
    + by apply wf_value_list.
    + rewrite Hj. simpl in Hfuel |- *. rewrite length_app in Hfuel. simpl in Hfuel. lia.
  - cbn [print_value] in *. destruct fuel as [|fuel]; [simpl in Hfuel; lia|].
    cbn [app]. rewrite parse_value_S.
    change (Ascii.eqb "{" dquote) with false. rewrite Ascii.eqb_refl. cbv iota.
    destruct d as [|kv d]; [reflexivity|].
    apply wf_value_dict in Hwf as [Hnd Hwf].
    change (fun kv0 : string * value => print_string kv0.1 ++ colon ++ print_value kv0.2)
      with print_member in *.
    destruct (members_start kv d) as (tail & Htail).
    rewrite <- app_assoc. rewrite Htail. cbn [app].
    rewrite (skip_ws_cons dquote) by reflexivity.
    change (Ascii.eqb dquote "}") with false. cbv iota.
    rewrite app_comm_cons, <- Htail.
    rewrite parse_members_print; [|done|done|done|].
    + by rewrite dict_of_pairs_nodup.
    + cbn [length] in Hfuel. rewrite length_app in Hfuel. cbn [length] in Hfuel. lia.
Qed.

Lemma simple_loads_dumps v : wf_value v = true -> simple_loads (simple_dumps v) = Some v.
Proof.
  intros Hwf. unfold simple_loads, simple_dumps.
  rewrite list_ascii_of_string_of_list_ascii.
  rewrite skip_ws_start by apply print_value_start.
  rewrite <- (app_nil_r (print_value v)) at 2.
  rewrite (print_value_reads_back v Hwf); [done|lia|done].
Qed.

(** *** The text written: one line, no surrounding whitespace *)

Definition no_newline (l : list ascii) : bool :=
  forallb (fun c => negb (Ascii.eqb c newline)) l.

Lemma no_newline_spec l : no_newline l = true <-> newline ∉ l.
Proof.
  unfold no_newline. induction l as [|c l IH]; simpl.
  - split; [intros _; apply not_elem_of_nil|done].
  - rewrite andb_true_iff, IH, not_elem_of_cons, negb_true_iff.
    destruct (Ascii.eqb_spec c newline); split; intros []; split; congruence.
Qed.

Lemma no_newline_app l m : no_newline (l ++ m) = no_newline l && no_newline m.
Proof. apply forallb_app. Qed.

Lemma no_newline_escape c : no_newline (json_escape c) = true.
Proof. destruct c as [[] [] [] [] [] [] [] []]; reflexivity. Qed.

Lemma no_newline_flat_map cs : no_newline (flat_map json_escape cs) = true.
Proof.
  induction cs as [|c cs IH]; [done|].
  cbn [flat_map]. by rewrite no_newline_app, no_newline_escape, IH.
Qed.

Lemma no_newline_digits ds :
  Forall (fun c => is_digit c = true) ds -> no_newline ds = true.
Proof.
  induction 1 as [|c ds Hc _ IH]; [done|]. simpl. rewrite IH, andb_true_r.
  apply negb_true_iff. destruct (Ascii.eqb_spec c newline) as [->|]; done.
Qed.

Lemma no_newline_N_digits n : no_newline (N_digits n) = true.
Proof. apply no_newline_digits. by destruct (N_digits_spec n) as (_ & ? & _). Qed.

Lemma no_newline_join sep parts :
  no_newline sep = true -> Forall (fun p => no_newline p = true) parts ->
  no_newline (join sep parts) = true.
Proof.
  intros Hsep. induction 1 as [|p parts Hp Hparts IH]; [done|].
  destruct parts as [|q parts]; [done|].
  rewrite join_cons2, !no_newline_app, Hp, Hsep, IH. done.
Qed.

Lemma no_newline_string s : no_newline (print_string s) = true.
Proof.
  unfold print_string. cbn [no_newline forallb]. fold (no_newline (flat_map json_escape (list_ascii_of_string s) ++ [dquote])).
  by rewrite no_newline_app, no_newline_flat_map.
Qed.

Lemma no_newline_print v : no_newline (print_value v) = true.
Proof.
  induction v as [|b|z|q|s|l IH|d IH] using value_ind.
  - done.
  - by destruct b.
  - cbn [print_value]. unfold int_chars.
    rewrite no_newline_app, no_newline_N_digits. by destruct (z <? 0)%Z.
  - cbn [print_value]. unfold float_chars.
    destruct (float_digits q) as [[m k]|]; [|done].
    rewrite !no_newline_app, no_newline_N_digits.
    assert (no_newline match k with
                       | 0%nat => ["0"%char]
                       | S _ => pad_zeros k (N_digits (Z.abs_N m mod 10 ^ N.of_nat k))
                       end = true) as ->.
    { destruct k; [done|]. unfold pad_zeros.
      rewrite no_newline_app, no_newline_N_digits, andb_true_r.
      apply no_newline_digits, Forall_digit_zeros. }
    by destruct (m <? 0)%Z.
  - apply no_newline_string.
  - cbn [print_value]. change (no_newline ("["%char :: ?l)) with (no_newline l).
    cbn [no_newline forallb]. fold (no_newline (join comma (map print_value l) ++ ["]"%char])).
    rewrite no_newline_app, no_newline_join; [done|done|].
    by apply Forall_fmap.
  - cbn [print_value].
    cbn [no_newline forallb].
    fold (no_newline (join comma (map (fun kv => print_string kv.1 ++ colon ++ print_value kv.2) d)
                      ++ ["}"%char])).
    rewrite no_newline_app, no_newline_join; [done|done|].
    apply Forall_fmap. eapply Forall_impl; [exact IH|].
    intros kv Hkv. unfold compose. cbn beta in *.
    by rewrite !no_newline_app, no_newline_string, Hkv.
Qed.

Lemma simple_dumps_one_line v : str_contains newline (simple_dumps v) = false.
Proof.
  apply str_contains_chars. unfold simple_dumps.
  rewrite list_ascii_of_string_of_list_ascii.
  apply no_newline_spec, no_newline_print.
Qed.

Definition head_ok (l : list ascii) : Prop :=
  match l with
  | c :: _ => is_space c = false
  | [] => False
  end.

Lemma head_ok_app l m : head_ok l -> head_ok (l ++ m).
Proof. by destruct l. Qed.

Lemma last_ok_app l m : head_ok (rev m) -> head_ok (rev (l ++ m)).
Proof. rewrite rev_app_distr. apply head_ok_app. Qed.

Lemma strip_ok l : head_ok l -> head_ok (rev l) -> rstrip (lstrip l) = l.
Proof.
  intros Hh Hl.
  assert (forall m, head_ok m -> lstrip m = m) as Hls.
  { intros [|c m]; [done|]. simpl. by intros ->. }
  unfold rstrip. rewrite (Hls l Hh), (Hls _ Hl). apply rev_involutive.
Qed.

Lemma last_ok_digits ds :
  Forall (fun c => is_digit c = true) ds -> ds <> [] -> head_ok (rev ds).
Proof.
  intros Hds Hne. apply Forall_rev in Hds.
  destruct (rev ds) as [|c r] eqn:Hr.
  - apply (f_equal (@rev ascii)) in Hr. rewrite rev_involutive in Hr. done.
  - apply Forall_cons in Hds as [Hc _]. by destruct (digit_start c Hc) as (_ & ? & _).
Qed.

Lemma print_value_head v : head_ok (print_value v).
Proof.
  pose proof (print_value_start v) as Hs.
  destruct (print_value v); [done|]. by destruct Hs as (_ & ? & _).
Qed.

Lemma print_value_last v : head_ok (rev (print_value v)).
Proof.
  destruct v as [|[]|z|q|s|l|d]; try done.
  - cbn [print_value]. unfold int_chars. apply last_ok_app.
    destruct (N_digits_spec (Z.abs_N z)) as (_ & ? & ? & _). by apply last_ok_digits.
  - cbn [print_value]. destruct (float_digits q) as [[m k]|] eqn:Hfd.
    + rewrite (float_chars_digits _ _ _ Hfd). do 3 apply last_ok_app.
      destruct (frac_digits_spec (Z.abs_N m) k) as (? & ? & _). by apply last_ok_digits.
    + unfold float_chars. by rewrite Hfd.
  - cbn [print_value]. unfold print_string.
    rewrite app_comm_cons. by apply last_ok_app.
  - cbn [print_value]. rewrite app_comm_cons. by apply last_ok_app.
  - cbn [print_value]. rewrite app_comm_cons. by apply last_ok_app.
Qed.

Lemma simple_dumps_stripped v : py_strip (simple_dumps v) = simple_dumps v.
Proof.
  unfold py_strip, simple_dumps. rewrite list_ascii_of_string_of_list_ascii.
  by rewrite strip_ok by (apply print_value_head || apply print_value_last).
Qed.

Lemma simple_dumps_nonempty v : simple_dumps v <> "".
Proof.
  unfold simple_dumps. pose proof (print_value_head v).
  by destruct (print_value v).
Qed.

(** The reference codec is a JSON codec. *)
#[local] Instance simple_json : JsonCodec := {|
  json_dumps := simple_dumps;
  json_loads := simple_loads;
  json_loads_dumps := simple_loads_dumps;
  json_dumps_one_line := simple_dumps_one_line;
  json_dumps_stripped := simple_dumps_stripped;
  json_dumps_nonempty := simple_dumps_nonempty
|}.

(** ** The reference validator is a validator *)

Lemma append_nonempty s t : t <> "" -> s +:+ t <> "".
Proof. intros Ht. destruct s; [done|discriminate]. Qed.

Lemma type_validate_message instance schema message :
  type_validate instance schema = Invalid message -> message <> "".
Proof.
  unfold type_validate. destruct schema as [|[]| | | | |s]; try done.
  - by intros [= <-].
  - destruct (allowed_types s); [|done]. destruct (existsb _ _); [done|].
    intros [= <-]. by apply append_nonempty.
Qed.

#[local] Instance type_validator : SchemaValidator := {|
  jsonschema_validate := type_validate;
  validation_message_nonempty := type_validate_message
|}.

(** ** Worked usage logs *)

(** A prompt whose responses are expected to be arrays. *)
Definition summary_files : list yaml_file :=
  [prompt_file "summary.yaml"
     [("prompt_id", VStr "summary"); ("version", VStr "1.0.0");
      ("template", VStr "Summarise {{text}}");
      ("expected_output_schema", VDict [("type", VStr "array")])]].


Definition summary_input : pydict := [("text", VStr "a long text")].
Definition summary_response : pydict := [("text", VStr "short")].



Definition first_record : pydict :=
  [("timestamp", VStr "2025-10-28T09:31:00+00:00");
   ("prompt_id", VStr "greeting"); ("version", VStr "2.0.0");
   ("input", VDict [("name", VStr "Ada")]);
   ("response", VDict [("text", VStr "Hi Ada!")]);
   ("latency_ms", VFloat (inject_Z 12)); ("metadata", VDict [])].

Definition first_line : string := json_dumps (VDict first_record) +:+ String newline "".

Lemma log_usage_round_trip_witness :
  exists record file',
    log_usage (_load_prompts summary_files) (Some first_line)
      "2025-10-28T09:32:00+00:00" "summary" "1.0.0" summary_input summary_response
      (VFloat (7 # 2)) (Some [("user", VStr "u1")])
    = Ok (record, file')
    /\ log_records file' = [VDict first_record; VDict record].
Proof.
  destruct (log_usage (_load_prompts summary_files) (Some first_line)
              "2025-10-28T09:32:00+00:00" "summary" "1.0.0" summary_input
              summary_response (VFloat (7 # 2)) (Some [("user", VStr "u1")]))
    as [[record file']| |] eqn:Hlog; [|vm_compute in Hlog; discriminate..].
  exists record, file'. split; [reflexivity|].
  rewrite (log_usage_round_trip _ _ _ _ _ _ _ _ _ _ _ Hlog);
    try (vm_compute; reflexivity).
  right. exists (list_ascii_of_string (json_dumps (VDict first_record))).
  vm_compute. reflexivity.
Defined.

Definition record_of (pid : string) (latency : value) : value :=
  VDict [("timestamp", VStr "2025-10-28T09:31:00+00:00");
         ("prompt_id", VStr pid); ("version", VStr "1.0.0");
         ("input", VDict []); ("response", VDict []);
         ("latency_ms", latency); ("metadata", VDict [])].

Definition line_of (rec : value) : string := json_dumps rec +:+ String newline "".



(** The scenario of the specification: two records of [A] around a line
    that is not JSON. *)
Definition interleaved : string :=
  line_of (record_of "A" (VFloat (inject_Z 10)))
  +:+ "not a record" +:+ String newline ""
  +:+ line_of (record_of "A" (VFloat (inject_Z 30))).




(** A line that is JSON but not an object is not skipped: reading
    [prompt_id] from it raises, and the aggregator answers with status
    500. *)
Example api_metrics_aborts_on_non_object :
  api_metrics (Some (interleaved +:+ "42" +:+ String newline "")) = MetricsError.
Proof. vm_compute. reflexivity. Qed.

(** * Further properties *)

(** ** Loading: what a group holds and how it is ordered *)

Lemma dict_get_setdefault_eq k v d :
  dict_get (dict_setdefault k v d) k = Some (dict_get_or d k v).
Proof.
  unfold dict_setdefault, dict_get_or.
  destruct (dict_get d k) as [w|] eqn:Hd; simpl; [done|].
  induction d as [|[k' v'] d IH]; simpl in *.
  - by rewrite decide_True.
  - destruct (decide (k' = k)); [done|]. by apply IH.
Qed.

Lemma dict_get_setdefault_ne k k' v d :
  k <> k' -> dict_get (dict_setdefault k v d) k' = dict_get d k'.
Proof.
  intros Hne. unfold dict_setdefault.
  destruct (dict_get d k); [done|].
  induction d as [|[k0 v0] d IH]; simpl.
  - by rewrite decide_False.
  - destruct (decide (k0 = k')); [done|apply IH].
Qed.

Section LoadedGroups.
Context `{VersionScheme}.

(** X2. The group of an identifier in the loaded index holds exactly the
    entries the files contributed to it, none lost and none repeated; it
    is in descending semantic order when every version of the group
    parses, and in descending order of the fallback key otherwise. *)
Theorem load_prompts_group_sorted files pid group :
  _load_prompts files !! pid = Some group ->
  group ≡ₚ entries_for pid files
  /\ (Forall (fun x => is_Some (semantic_key x)) group ->
      StronglySorted (fun x y => semver_lt x y = false) group)
  /\ (~ Forall (fun x => is_Some (semantic_key x)) group ->
      StronglySorted (fun x y => str_lt (lexical_key x) (lexical_key y) = false) group).
Proof.
  intros Hg. destruct (load_prompts_group _ _ _ Hg) as (loaded & _ & -> & ->).
  pose proof (sort_versions_perm (entries_for pid files)) as Hperm.
  split; [done|]. split.
  - intros Hall. apply sort_versions_semantic. by rewrite <- Hperm.
  - intros Hnot. rewrite sort_versions_lexical.
    + apply (sort_desc_sorted str_lt lexical_key str_lt_irrefl str_lt_trans str_lt_cotrans).
    + intros Hall. apply Hnot. by rewrite Hperm.
Qed.

(** X3. Every entry of the loaded index is the document of one file with
    [_source_file] set to the file's base name, [_loaded_at] set to the
    time of loading, and [example_inputs] and [expected_output_schema]
    present, with the document's value or the defaults [[]] and [{}];
    every other field is the document's. *)
Theorem loaded_entry_fields files pid group e :
  _load_prompts files !! pid = Some group -> e ∈ group ->
  exists f data,
    f ∈ files /\ content f = Some (VDict data)
    /\ dict_get e "_source_file" = Some (VStr (file_name f))
    /\ dict_get e "_loaded_at" = Some (VStr (loaded_at f))
    /\ dict_get e "example_inputs" = Some (dict_get_or data "example_inputs" (VList []))
    /\ dict_get e "expected_output_schema"
       = Some (dict_get_or data "expected_output_schema" (VDict []))
    /\ forall k,
         k ∉ ["_source_file"; "_loaded_at"; "example_inputs"; "expected_output_schema"] ->
         dict_get e k = dict_get data k.
Proof.
  intros Hg He. destruct (load_prompts_group _ _ _ Hg) as (loaded & _ & -> & ->).
  rewrite sort_versions_perm in He.
  unfold entries_for in He. apply list_elem_of_omap in He as (f & Hf & Hl).
  destruct (load_entry f) as [[p entry]|] eqn:Hload; [|done].
  destruct (decide (p = pid)) as [->|]; [|done]. injection Hl as ->.
  unfold load_entry in Hload.
  destruct (content f) as [[| | | | | |data]|] eqn:Hc; try done.
  destruct (negb _); [done|].
  destruct (dict_get data "prompt_id") as [p|]; [|done].
  injection Hload as _ <-. exists f, data. split; [done|]. split; [done|].
  split; [|split; [|split; [|split]]].
  - rewrite !dict_get_setdefault_ne by done.
    rewrite dict_get_set_ne by done. apply dict_get_set_eq.
  - rewrite !dict_get_setdefault_ne by done. apply dict_get_set_eq.
  - rewrite dict_get_setdefault_ne by done. rewrite dict_get_setdefault_eq.
    unfold dict_get_or. by rewrite !dict_get_set_ne by done.
  - rewrite dict_get_setdefault_eq. unfold dict_get_or.
    rewrite dict_get_setdefault_ne by done. by rewrite !dict_get_set_ne by done.
  - intros k Hk. rewrite !not_elem_of_cons in Hk.
    destruct Hk as (? & ? & ? & ? & _).
    rewrite !dict_get_setdefault_ne by done. by rewrite !dict_get_set_ne by done.
Qed.

End LoadedGroups.

(** ** The sort is stable *)

Section SortStable.
Context {A K : Type} (lt : K -> K -> bool) (key : A -> K) (p : A -> bool).

(** Entries selected by [p] whose keys do not order them keep their
    relative position. *)
Lemma insert_desc_filter x l :
  (p x = true -> forall y, y ∈ l -> p y = true -> lt (key x) (key y) = false) ->
  List.filter p (insert_desc lt key x l) = List.filter p (x :: l).
Proof.
  induction l as [|y l IH]; intros Hx; [done|].
  simpl insert_desc. destruct (lt (key x) (key y)) eqn:Hxy; [|done].
  assert (List.filter p (insert_desc lt key x l) = List.filter p (x :: l)) as IH'.
  { apply IH. intros Hp z Hz. apply Hx; [done|]. apply elem_of_cons. by right. }
  simpl in *. rewrite IH'.
  destruct (p x) eqn:Hpx; [|done].
  destruct (p y) eqn:Hpy; [|done].
  rewrite Hx in Hxy; [done|done| |done]. apply elem_of_cons. by left.
Qed.

Lemma sort_desc_filter l :
  (forall x y, x ∈ l -> y ∈ l -> p x = true -> p y = true -> lt (key x) (key y) = false) ->
  List.filter p (sort_desc lt key l) = List.filter p l.
Proof.
  induction l as [|x l IH]; intros Hl; [done|].
  simpl sort_desc. rewrite insert_desc_filter.
  - simpl. rewrite IH; [done|].
    intros a b Ha Hb. apply Hl; apply elem_of_cons; by right.
  - intros Hpx y Hy Hpy. apply Hl; [by apply elem_of_cons; left| |done|done].
    apply elem_of_cons. right.
    by rewrite <- (sort_desc_perm lt key l).
Qed.

Lemma find_filter l : List.find p l = head (List.filter p l).
Proof. induction l as [|x l IH]; simpl; [done|]. by destruct (p x). Qed.

Lemma sort_desc_find l :
  (forall x y, x ∈ l -> y ∈ l -> p x = true -> p y = true -> lt (key x) (key y) = false) ->
  List.find p (sort_desc lt key l) = List.find p l.
Proof. intros Hl. by rewrite !find_filter, sort_desc_filter. Qed.

End SortStable.

Section ExactLookup.
Context `{VersionScheme}.

(** An entry whose version string is not ["None"] has a [version] field,
    and both sort keys are computed from that string. *)
Lemma version_string_keys e v :
  version_string e = v -> v <> "None" ->
  semantic_key e = parse_version v /\ lexical_key e = v.
Proof.
  unfold version_string, semantic_key, lexical_key, dict_get_or.
  destruct (dict_get e "version") as [a|]; simpl; [by intros ->|].
  by intros <-.
Qed.

Lemma sort_versions_find versions v :
  v <> "None" ->
  List.find (fun e => bool_decide (version_string e = v)) (sort_versions versions)
  = List.find (fun e => bool_decide (version_string e = v)) versions.
Proof.
  intros Hv. unfold sort_versions.
  destruct (mapM _ versions) as [keyed|] eqn:Hm.
  - apply keyed_spec in Hm as [<- Hkeys].
    rewrite Forall_forall in Hkeys.
    assert (forall (l : list (version * pydict)),
              List.find (fun e => bool_decide (version_string e = v)) (snd <$> l)
              = snd <$> List.find (fun kx => bool_decide (version_string (snd kx) = v)) l)
      as Hfind.
    { induction l as [|kx l IH]; simpl; [done|]. by case_bool_decide. }
    rewrite !Hfind. f_equal. apply sort_desc_find.
    intros x y Hx Hy Hpx Hpy.
    apply bool_decide_eq_true in Hpx, Hpy.
    destruct (version_string_keys _ _ Hpx Hv) as [Hkx _].
    destruct (version_string_keys _ _ Hpy Hv) as [Hky _].
    rewrite (Hkeys _ Hx) in Hkx. rewrite (Hkeys _ Hy) in Hky.
    assert (fst x = fst y) as -> by congruence. apply version_lt_irrefl.
  - apply sort_desc_find. intros x y _ _ Hpx Hpy.
    apply bool_decide_eq_true in Hpx, Hpy.
    destruct (version_string_keys _ _ Hpx Hv) as [_ ->].
    destruct (version_string_keys _ _ Hpy Hv) as [_ ->].
    apply str_lt_irrefl.
Qed.

(** X4. A lookup by version does not depend on the order of the group:
    for a version string other than ["None"], [get_prompt] on the loaded
    index returns the first entry, in the order the files were read, that
    the files filed under the identifier with that version string, and
    raises [KeyError] when there is none. *)
Theorem get_prompt_version_first_loaded files pid v :
  v <> "None" ->
  match List.find (fun e => bool_decide (version_string e = v)) (entries_for pid files) with
  | Some e => get_prompt (_load_prompts files) pid (Some v) = Ok e
  | None => exists msg, get_prompt (_load_prompts files) pid (Some v) = Raise (KeyError msg)
  end.
Proof.
  intros Hv. unfold get_prompt. rewrite load_prompts_lookup.
  destruct (entries_for pid files) as [|e0 es] eqn:He; [simpl; by eexists|].
  fold (version_string).
  change (fun v0 : pydict => bool_decide (py_str (dict_get_or v0 "version" VNone) = v))
    with (fun e => bool_decide (version_string e = v)).
  rewrite sort_versions_find by done.
  destruct (List.find _ (e0 :: es)); [done|by eexists].
Qed.

(** X5. On a loaded index [get_prompt] without a version never raises
    [IndexError]: it returns an entry of the identifier when some file
    declares it, and raises [KeyError] otherwise. *)
Theorem get_prompt_latest_registered files pid :
  match entries_for pid files with
  | [] => get_prompt (_load_prompts files) pid None
          = Raise (KeyError ("prompt_id '" +:+ pid +:+ "' not found"))
  | group => exists e, get_prompt (_load_prompts files) pid None = Ok e /\ e ∈ group
  end.
Proof.
  unfold get_prompt. rewrite load_prompts_lookup.
  destruct (entries_for pid files) as [|e0 es] eqn:He; [done|].
  pose proof (sort_versions_perm (e0 :: es)) as Hperm.
  destruct (sort_versions (e0 :: es)) as [|e rest] eqn:Hs.
  { apply Permutation_nil_l in Hperm. done. }
  exists e. split; [done|]. rewrite <- Hperm. apply elem_of_cons. by left.
Qed.

End ExactLookup.

Section GroupFrame.
Context `{VersionScheme}.

(** X6. The group of an identifier depends only on the files that declare
    it: a file that cannot be read, whose document is not a mapping, has
    no [prompt_id] or declares another identifier can be added or removed
    without changing the group. *)
Theorem load_prompts_group_frame before f after pid :
  (forall data p,
     content f = Some (VDict data) -> dict_get data "prompt_id" = Some p ->
     py_str p <> pid) ->
  _load_prompts (before ++ f :: after) !! pid = _load_prompts (before ++ after) !! pid.
Proof.
  intros Hother. rewrite !load_prompts_lookup.
  assert (entries_for pid (before ++ f :: after) = entries_for pid (before ++ after)) as ->;
    [|done].
  unfold entries_for. rewrite !omap_app. f_equal.
  change (omap ?g (f :: after))
    with (match g f with Some e => e :: omap g after | None => omap g after end).
  cbn beta.
  destruct (load_entry f) as [[p entry]|] eqn:Hload; [|reflexivity].
  destruct (decide (p = pid)) as [->|]; [|reflexivity].
  exfalso. unfold load_entry in Hload.
  destruct (content f) as [[| | | | | |data]|] eqn:Hc; try done.
  destruct (negb _); [done|].
  destruct (dict_get data "prompt_id") as [p|] eqn:Hp; [|done].
  injection Hload as Hpid _. by eapply Hother.
Qed.

End GroupFrame.

(** ** Rendering: what the result depends on *)




Lemma append_empty_r s : s +:+ "" = s.
Proof. induction s as [|c s IH]; [done|]. change (String c (s +:+ "") = String c s). by rewrite IH. Qed.

Lemma find_open_plain l :
  "{"%char ∉ l -> find_open l = (l, None).
Proof.
  induction l as [|c l IH]; [done|].
  intros Hl. apply not_elem_of_cons in Hl as [Hc Hl].
  cbn [find_open]. destruct l as [|d l']; [done|].
  assert (Ascii.eqb c "{" = false) as -> by (apply Ascii.eqb_neq; congruence).
  cbn [andb]. by rewrite (IH Hl).
Qed.

Lemma unify_newlines_cons x l :
  unify_newlines (x :: l)
  = if Ascii.eqb x carriage_return
    then newline :: match l with
                    | y :: l' => if Ascii.eqb y newline then unify_newlines l'
                                 else unify_newlines l
                    | [] => []
                    end
    else x :: unify_newlines l.
Proof. reflexivity. Qed.

Lemma unify_newlines_elem c l : c ∈ unify_newlines l -> c = newline \/ c ∈ l.
Proof.
  assert (forall n l, (length l <= n)%nat ->
            c ∈ unify_newlines l -> c = newline \/ c ∈ l) as Hn;
    [|by apply (Hn (length l))].
  clear l. induction n as [|n IH]; intros l Hlen.
  { destruct l; [|simpl in Hlen; lia]. intros Hc. by apply elem_of_nil in Hc. }
  destruct l as [|x l]; [intros Hc; by apply elem_of_nil in Hc|].
  simpl in Hlen. rewrite unify_newlines_cons.
  destruct (Ascii.eqb x carriage_return).
  - intros [->|Hc]%elem_of_cons; [by left|].
    destruct l as [|y l]; [by apply elem_of_nil in Hc|]. simpl in Hlen.
    destruct (Ascii.eqb y newline).
    + apply IH in Hc as [?|?]; [by left| |lia].
      right. apply elem_of_cons. right. apply elem_of_cons. by right.
    + apply IH in Hc as [?|?]; [by left| |simpl; lia].
      right. apply elem_of_cons. by right.
  - intros [->|Hc]%elem_of_cons.
    + right. apply elem_of_cons. by left.
    + apply IH in Hc as [?|?]; [by left| |lia].
      right. apply elem_of_cons. by right.
Qed.

Lemma drop_trailing_newline_elem c l : c ∈ drop_trailing_newline l -> c ∈ l.
Proof.
  induction l as [|x l IH]; [done|].
  destruct l as [|y l].
  - simpl. by destruct (Ascii.eqb x newline); [intros ?%elem_of_nil|].
  - change (drop_trailing_newline (x :: y :: l)) with (x :: drop_trailing_newline (y :: l)).
    intros [->|Hc]%elem_of_cons; apply elem_of_cons; auto.
Qed.

(** The text Jinja lexes: line endings unified, one trailing line feed
    dropped. *)
Definition lexed (source : string) : list ascii :=
  drop_trailing_newline (unify_newlines (list_ascii_of_string source)).

Lemma parse_template_plain source :
  "{"%char ∉ list_ascii_of_string source ->
  parse_template source = Template [Data (string_of_list_ascii (lexed source))].
Proof.
  intros Hplain. unfold parse_template. fold (lexed source).
  cbn [parse_pieces]. rewrite find_open_plain; [done|].
  intros Hin. apply drop_trailing_newline_elem, unify_newlines_elem in Hin as [Hin|Hin];
    [done|by apply Hplain].
Qed.

Section RenderMore.
Context `{VersionScheme}.


(** X8. A template without an opening brace is returned as it is,
    whatever the inputs: nothing is substituted, line endings become line
    feeds and one trailing line feed is dropped.  A definition without a
    [template] field renders to the empty string. *)
Theorem render_prompt_plain_text index pid version inputs prompt source :
  get_prompt index pid version = Ok prompt ->
  dict_get_or prompt "template" (VStr "") = VStr source ->
  "{"%char ∉ list_ascii_of_string source ->
  dict_get inputs "self" = None ->
  render_prompt index pid inputs version = Ok (string_of_list_ascii (lexed source))
  /\ (dict_get prompt "template" = None ->
      render_prompt index pid inputs version = Ok "").
Proof.
  intros Hget Htext Hplain Hself.
  assert (render_prompt index pid inputs version = Ok (string_of_list_ascii (lexed source)))
    as Hr.
  { unfold render_prompt, jinja_render.
    rewrite Hget, Htext, Hself, parse_template_plain by done.
    simpl. by rewrite append_empty_r. }
  split; [done|]. intros Hnone. rewrite Hr.
  unfold dict_get_or in Htext. rewrite Hnone in Htext. simpl in Htext.
  by injection Htext as <-.
Qed.


End RenderMore.

(** ** The usage log: the record written, failures, and the log as a whole *)

(** A log [api_metrics] reads without raising: it is empty or ends with a
    line feed, and each of its lines is blank, rejected by [json.loads], or
    a usage record. *)
Definition usage_log `{JsonCodec} (text : string) : Prop :=
  line_terminated (list_ascii_of_string text)
  /\ Forall (fun line => match read_line line with
                         | Some rec => usage_record rec = true
                         | None => True
                         end) (file_lines (list_ascii_of_string text)).

Section UsageLogMore.
Context `{VersionScheme} `{SchemaValidator} `{JsonCodec}.

(** What a successful call wrote. *)
Lemma log_usage_written index log now pid ver input response latency metadata record file' :
  log_usage index log now pid ver input response latency metadata = Ok (record, file') ->
  file' = default "" log +:+ json_dumps (VDict record) +:+ String newline ""
  /\ exists x meta,
       py_float latency = Ok x
       /\ record = [("timestamp", VStr now); ("prompt_id", VStr pid); ("version", VStr ver);
                    ("input", VDict input); ("response", VDict response);
                    ("latency_ms", VFloat x); ("metadata", VDict meta)]
       /\ (meta = default [] metadata
           \/ exists note, note <> ""
                /\ meta = dict_set "validation_error" (VStr note) (default [] metadata)).
Proof.
  unfold log_usage. intros Hlog.
  destruct (check_response index pid ver response) as [note| |]; try done.
  destruct (py_float latency) as [x| |] eqn:Hx; try done.
  injection Hlog as <- <-. split; [done|].
  destruct note as [note|]; [|exists x, (default [] metadata); auto].
  change (py_truthy (VStr note)) with (negb (String.eqb note "")).
  destruct (negb (String.eqb note "")) eqn:Hnote.
  - exists x, (dict_set "validation_error" (VStr note) (default [] metadata)).
    split; [done|]. split; [reflexivity|]. right. exists note. split; [|done].
    intros ->. done.
  - exists x, (default [] metadata). auto.
Qed.

(** X10. The record of a successful call has exactly the seven fields
    [timestamp], [prompt_id], [version], [input], [response], [latency_ms]
    and [metadata], in this order.  Its metadata is the caller's, unchanged,
    or the caller's with [validation_error] set to a non-empty note: every
    other key of the caller is kept, and a [validation_error] of the
    caller's own is overwritten by the note. *)
Theorem log_usage_record_shape index log now pid ver input response latency metadata
    record file' :
  log_usage index log now pid ver input response latency metadata = Ok (record, file') ->
  map fst record = ["timestamp"; "prompt_id"; "version"; "input"; "response";
                    "latency_ms"; "metadata"]
  /\ exists meta,
       dict_get record "metadata" = Some (VDict meta)
       /\ (forall k, k <> "validation_error" ->
           dict_get meta k = dict_get (default [] metadata) k)
       /\ (meta = default [] metadata
           \/ exists note, note <> "" /\ dict_get meta "validation_error" = Some (VStr note)).
Proof.
  intros Hlog. destruct (log_usage_written _ _ _ _ _ _ _ _ _ _ _ Hlog)
    as (_ & x & meta & _ & -> & Hmeta).
  split; [done|]. exists meta. split; [done|].
  destruct Hmeta as [->|(note & Hnote & ->)].
  - split; [done|]. by left.
  - split.
    + intros k Hk. by apply dict_get_set_ne.
    + right. exists note. split; [done|]. apply dict_get_set_eq.
Qed.


End UsageLogMore.

Section UsageLogInvariant.
Context `{VersionScheme} `{SchemaValidator} `{JsonCodec}.





End UsageLogInvariant.

(** ** Metrics: one identifier at a time *)


Section MetricsPerIdentifier.
Context `{VersionScheme} `{JsonCodec}.





End MetricsPerIdentifier.

(** ** A running maximum *)

Section RunningMax.
Context {A K : Type} (lt : K -> K -> bool) (key : A -> option K).
Hypothesis lt_irrefl : forall a, lt a a = false.
Hypothesis lt_trans : forall a b c, lt a b = true -> lt b c = true -> lt a c = true.
Hypothesis lt_cotrans : forall a b c, lt a c = true -> lt a b = true \/ lt b c = true.




End RunningMax.

(** ** Metrics: the last timestamp and the latest version *)



Section MetricsExtremes.
Context `{VersionScheme} `{JsonCodec}.








End MetricsExtremes.

(** ** Metrics: a line that is not an object, and logging then counting *)

Section MetricsAbort.
Context `{VersionScheme} `{JsonCodec}.

Lemma fold_lines_raises lines line v agg :
  line ∈ lines -> read_line line = Some v -> (forall r, v <> VDict r) ->
  forall agg', fold_lines agg lines <> Ok agg'.
Proof.
  intros Hin Hread Hv. revert agg.
  induction lines as [|l lines IH]; intros agg agg'; [by apply elem_of_nil in Hin|].
  simpl. apply elem_of_cons in Hin as [<-|Hin].
  - rewrite fold_line_read, Hread. destruct v; try done. by destruct (Hv d).
  - destruct (fold_line agg l); [by apply IH|done|done].
Qed.

(** X1. A line that [json.loads] reads as something other than an object
    (a number, a string, a list, [null]) is not skipped: reading
    [prompt_id] from it raises outside the inner [try], and the endpoint
    answers with status 500 whatever the other lines hold. *)
Theorem api_metrics_non_object_line text line v :
  line ∈ file_lines (list_ascii_of_string text) ->
  read_line line = Some v -> (forall r, v <> VDict r) ->
  api_metrics (Some text) = MetricsError.
Proof.
  intros Hin Hread Hv. unfold api_metrics.
  pose proof (fold_lines_raises _ _ _ ∅ Hin Hread Hv) as Hno.
  destruct (fold_lines ∅ _) as [agg| |]; [by destruct (Hno agg)|done|done].
Qed.

End MetricsAbort.

Section LogThenCount.
Context `{VersionScheme} `{SchemaValidator} `{JsonCodec}.



End LogThenCount.

(** ** Metrics: the order of the lines *)





Section MetricsOrder.
Context `{VersionScheme} `{JsonCodec}.


End MetricsOrder.

(** ** Loading, then looking up *)

Section Reachable.
Context `{VersionScheme}.

(** X22. Every entry the files contribute can be fetched: asking
    [get_prompt] for the identifier and the version string of the entry
    returns an entry with that version string, and the entry itself when
    no other entry of the identifier has the same version string. *)
Theorem loaded_entry_reachable files pid e :
  e ∈ entries_for pid files ->
  exists e',
    get_prompt (_load_prompts files) pid (Some (version_string e)) = Ok e'
    /\ version_string e' = version_string e
    /\ (NoDup (version_string <$> entries_for pid files) -> e' = e).
Proof.
  intros He. unfold get_prompt. rewrite load_prompts_lookup.
  destruct (entries_for pid files) as [|e0 es] eqn:Hentries; [by apply elem_of_nil in He|].
  pose proof (sort_versions_perm (e0 :: es)) as Hperm.
  pose proof (find_exact (sort_versions (e0 :: es)) (version_string e)) as Hfind.
  unfold version_string in Hfind at 1.
  destruct (List.find _ (sort_versions (e0 :: es))) as [e'|].
  - destruct Hfind as (before & after & Hsplit & Hv & _).
    exists e'. split; [done|]. split; [done|]. intros Hnodup.
    assert (e' ∈ e0 :: es) as He'.
    { rewrite <- Hperm, Hsplit. apply elem_of_app. right. apply elem_of_cons. by left. }
    clear -He He' Hv Hnodup.
    induction (e0 :: es) as [|x l IH]; [by apply elem_of_nil in He|].
    rewrite fmap_cons in Hnodup. apply NoDup_cons in Hnodup as [Hx Hl].
    apply elem_of_cons in He as [->|He]; apply elem_of_cons in He' as [->|He']; try done.
    + exfalso. apply Hx. rewrite <- Hv. by apply list_elem_of_fmap_2.
    + exfalso. apply Hx. rewrite Hv. by apply list_elem_of_fmap_2.
    + by apply IH.
  - exfalso. rewrite Forall_forall in Hfind. apply (Hfind e); [|done].
    by rewrite Hperm.
Qed.

End Reachable.

(** ** The HTTP handlers: what they answer *)

Section HandlerFacts.
Context `{VersionScheme} `{SchemaValidator} `{JsonCodec}.






(** X20. [POST /prompt/<id>/log] writes only when it answers 200.  With
    status 200 the prompt and version resolve, the body holds the record,
    which carries the identifier of the path, and the usage file has grown
    by the line of that record.  When the handler aborts (400, 404) the
    usage file is untouched, and when an exception escapes its content is
    unchanged (the file may have been created, empty). *)
Theorem api_log_usage_writes_iff_ok index log now pid body :
  match api_log_usage index log now pid body with
  | (Json status out, log') =>
      status = 200%nat
      /\ exists record ver prompt,
           out = VDict [("status", VStr "ok"); ("record", VDict record)]
           /\ log' = Some (default "" log +:+ json_dumps (VDict record)
                           +:+ String newline "")
           /\ get_prompt index pid (Some ver) = Ok prompt
           /\ dict_get record "prompt_id" = Some (VStr pid)
           /\ dict_get record "version" = Some (VStr ver)
  | (Abort status why, log') =>
      log' = log
      /\ (status = 400%nat /\ (why = MissingBody \/ why = MissingFields)
          \/ status = 404%nat /\ why = VersionNotFound)
  | (Escapes e, log') => default "" log' = default "" log
  | (OutsideModel, _) => True
  end.
Proof.
  unfold api_log_usage.
  destruct body as [b|]; [|simpl; auto].
  destruct (negb (py_truthy b)); [simpl; auto|].
  destruct b as [| | | | | |d]; try done. cbv zeta.
  destruct (requested_version (dict_get_or d "version" VNone)) as [v|] eqn:Hv;
    [|simpl; auto].
  destruct (dict_get_or d "latency_ms" VNone) eqn:Hlat; try (simpl; by auto).
  all: destruct (get_prompt_with_version index pid v) as [[prompt Hp]|[msg Hp]];
    rewrite Hp; [|simpl; by auto].
  all: destruct (dict_get_or d "version" VNone) as [| | | |ver| |] eqn:Hver; try done.
  all: injection Hv as <-.
  all: destruct (dict_get_or d "input" (VDict [])) as [| | | | | |input]; try done.
  all: destruct (dict_get_or d "response" (VDict [])) as [| | | | | |resp]; try done.
  all: destruct (request_metadata _) as [meta|]; try done.
  all: match goal with
       | |- context [log_usage ?i ?l ?n ?p ?v ?a ?b ?c ?m] =>
           destruct (log_usage i l n p v a b c m) as [[rec file']| |] eqn:Hlog
       end; try done.
  all: split; [done|].
  all: destruct (log_usage_written _ _ _ _ _ _ _ _ _ _ _ Hlog)
         as (-> & x & meta' & _ & -> & _).
  all: eexists _, ver, prompt; repeat split; done.
Qed.

End HandlerFacts.

(** ** Worked examples: the registry *)

Lemma load_prompts_group_sorted_witness :
  [greeting_v2; greeting_v1] ≡ₚ entries_for "greeting" greeting_files
  /\ StronglySorted (fun x y => semver_lt x y = false) [greeting_v2; greeting_v1].
Proof.
  destruct (load_prompts_group_sorted greeting_files "greeting" [greeting_v2; greeting_v1])
    as (Hperm & Hsemantic & _).
  - vm_compute. reflexivity.
  - split; [exact Hperm|]. apply Hsemantic.
    repeat constructor; eexists; vm_compute; reflexivity.
Defined.

Lemma loaded_entry_fields_witness :
  exists f data,
    f ∈ greeting_files /\ content f = Some (VDict data)
    /\ dict_get greeting_v2 "_source_file" = Some (VStr (file_name f))
    /\ dict_get greeting_v2 "_loaded_at" = Some (VStr (loaded_at f))
    /\ dict_get greeting_v2 "example_inputs"
       = Some (dict_get_or data "example_inputs" (VList []))
    /\ dict_get greeting_v2 "expected_output_schema"
       = Some (dict_get_or data "expected_output_schema" (VDict []))
    /\ forall k,
         k ∉ ["_source_file"; "_loaded_at"; "example_inputs"; "expected_output_schema"] ->
         dict_get greeting_v2 k = dict_get data k.
Proof.
  apply (loaded_entry_fields greeting_files "greeting" [greeting_v2; greeting_v1]).
  - vm_compute. reflexivity.
  - apply elem_of_cons. by left.
Defined.

(** Two files that declare the same version of one prompt, read in this
    order, and a later version. *)
Definition duplicate_files : list yaml_file :=
  [prompt_file "first.yaml"
     [("prompt_id", VStr "greeting"); ("version", VStr "1.0.0");
      ("template", VStr "Hello {{name}}")];
   prompt_file "newer.yaml"
     [("prompt_id", VStr "greeting"); ("version", VStr "2.0.0");
      ("template", VStr "Hi {{name}}!")];
   prompt_file "second.yaml"
     [("prompt_id", VStr "greeting"); ("version", VStr "1.0.0");
      ("template", VStr "Good day {{name}}")]].

Lemma get_prompt_version_first_loaded_witness :
  get_prompt (_load_prompts duplicate_files) "greeting" (Some "1.0.0")
  = Ok (loaded [("prompt_id", VStr "greeting"); ("version", VStr "1.0.0");
                ("template", VStr "Hello {{name}}")] "first.yaml").
Proof.
  assert ("1.0.0" <> "None") as Hv by done.
  exact (get_prompt_version_first_loaded duplicate_files "greeting" "1.0.0" Hv).
Defined.

Lemma load_prompts_group_frame_witness :
  _load_prompts (greeting_files ++ notes_file :: duplicate_files) !! "greeting"
  = _load_prompts (greeting_files ++ duplicate_files) !! "greeting".
Proof.
  apply (load_prompts_group_frame greeting_files notes_file duplicate_files "greeting").
  intros data p [= <-]. discriminate.
Defined.

Lemma loaded_entry_reachable_witness :
  exists e',
    get_prompt (_load_prompts greeting_files) "greeting" (Some (version_string greeting_v1))
    = Ok e'
    /\ version_string e' = version_string greeting_v1
    /\ (NoDup (version_string <$> entries_for "greeting" greeting_files) -> e' = greeting_v1).
Proof.
  apply (loaded_entry_reachable greeting_files "greeting" greeting_v1).
  assert (entries_for "greeting" greeting_files = [greeting_v1; greeting_v2]) as ->
    by (vm_compute; reflexivity).
  apply elem_of_cons. by left.
Defined.

(** ** Worked examples: rendering *)

(** A prompt with two variables and one with none. *)
Definition letter_files : list yaml_file :=
  [prompt_file "letter.yaml"
     [("prompt_id", VStr "letter"); ("version", VStr "1.0.0");
      ("template", VStr "Dear {{ title }} {{ name }},")];
   prompt_file "motd.yaml"
     [("prompt_id", VStr "motd"); ("version", VStr "1.0.0");
      ("template", VStr ("Welcome." +:+ String newline ""))]].


Lemma render_prompt_plain_text_witness :
  render_prompt (_load_prompts letter_files) "motd" [("name", VStr "Ada")] None
  = Ok "Welcome.".
Proof.
  pose (motd := loaded [("prompt_id", VStr "motd"); ("version", VStr "1.0.0");
                        ("template", VStr ("Welcome." +:+ String newline ""))]
                  "motd.yaml").
  assert (get_prompt (_load_prompts letter_files) "motd" None = Ok motd) as Hget
    by (vm_compute; reflexivity).
  assert ("{"%char ∉ list_ascii_of_string ("Welcome." +:+ String newline "")) as Hplain
    by (refine (bool_decide_unpack _ _); vm_compute; exact I).
  exact (proj1 (render_prompt_plain_text (_load_prompts letter_files) "motd" None
                  [("name", VStr "Ada")] motd ("Welcome." +:+ String newline "")
                  Hget eq_refl Hplain eq_refl)).
Defined.


(** ** Worked examples: logging and metrics *)


Lemma interleaved_usage_log : usage_log interleaved.
Proof.
  split.
  - right. exists (removelast (list_ascii_of_string interleaved)).
    vm_compute. reflexivity.
  - let lines := eval vm_compute in (file_lines (list_ascii_of_string interleaved)) in
    change (file_lines (list_ascii_of_string interleaved)) with lines.
    repeat constructor; vm_compute; reflexivity.
Qed.

Lemma api_metrics_non_object_line_witness :
  api_metrics (Some (interleaved +:+ "42" +:+ String newline "")) = MetricsError.
Proof.
  apply (api_metrics_non_object_line _ ["4"%char; "2"%char; newline] (VInt 42)).
  - refine (bool_decide_unpack _ _). vm_compute. exact I.
  - vm_compute. reflexivity.
  - done.
Defined.

Lemma log_usage_record_shape_witness :
  exists record file',
    log_usage (_load_prompts summary_files) None "2025-10-28T09:31:00+00:00"
      "summary" "1.0.0" summary_input summary_response (VInt 12)
      (Some [("user", VStr "u1"); ("validation_error", VStr "none")])
    = Ok (record, file')
    /\ map fst record = ["timestamp"; "prompt_id"; "version"; "input"; "response";
                         "latency_ms"; "metadata"]
    /\ exists meta,
         dict_get record "metadata" = Some (VDict meta)
         /\ dict_get meta "user" = Some (VStr "u1").
Proof.
  destruct (log_usage (_load_prompts summary_files) None "2025-10-28T09:31:00+00:00"
              "summary" "1.0.0" summary_input summary_response (VInt 12)
              (Some [("user", VStr "u1"); ("validation_error", VStr "none")]))
    as [[record file']| |] eqn:Hlog; [|vm_compute in Hlog; discriminate..].
  exists record, file'. split; [reflexivity|].
  destruct (log_usage_record_shape _ _ _ _ _ _ _ _ _ _ _ Hlog)
    as (Hkeys & meta & Hmeta & Hkept & _).
  split; [exact Hkeys|]. exists meta. split; [exact Hmeta|].
  rewrite Hkept by done. reflexivity.
Defined.













(** ** Worked examples: the handlers *)

